(** * The ticket queue routes of [server/routes.ts]

    A shallow embedding of the three queue handlers registered by
    [registerRoutes]

      - [POST /api/queue/sync]            (routes.ts, lines 551-644)
      - [POST /api/queue/add-and-notify]  (routes.ts, lines 667-739)
      - [POST /api/queue/update-status]   (routes.ts, lines 742-782)

    together with the properties the design document states about them.

    The handlers read and write one durable document through
    [loadQueueData] / [saveQueueData] and call the e-mail and WhatsApp
    services.  Both are effects: a handler is modelled as a computation
    over the durable document that also emits the list of effects it
    performed, in program order.

    Scope of the model: request bodies are JSON documents whose orders
    are JSON objects; [console] output is left out; the module
    [./queue-storage] is not among the sources and its two functions
    are taken as whole-document load and save.

    Further routes of the same file are embedded after the queue: the
    WhatsApp webhook, the product defaults, login, the two middlewares
    and the routes they guard over orders and payments, the e-mail
    recipients with their pattern, and the e-mail notification routes.
    Their collaborators ([storage], [bcrypt], the e-mail and WhatsApp
    services, the zod schemas) are not among the sources either: each
    call is answered by a parameter, and [parseInt] of a route
    parameter is given as its result. *)

From Stdlib Require Import ZArith.
From stdpp Require Import gmap strings list fin_maps pretty.

#[local] Set Warnings "-register-all".

(** ** JavaScript values *)

(** Values that travel in a JSON request body or sit in the queue
    document.  Numbers are the integers ([currentNumber] is a counter;
    the handlers only test numbers for truthiness and equality).
    [JDate] is a [Date] object, identified with its time value. *)
Inductive jsval : Type :=
| JUndefined
| JNull
| JBool (b : bool)
| JNum (n : Z)
| JStr (s : string)
| JDate (t : Z)
| JArr (l : list jsval)
| JObj (m : gmap string jsval).

(** An order is a JSON object: a finite map from property names to
    values.  The handlers read [id], [createdAt] and [status]; every
    other property is payload. *)
Abbreviation order := (gmap string jsval).

(** [!v] is [negb (truthy v)]. *)
Definition truthy (v : jsval) : bool :=
  match v with
  | JUndefined | JNull => false
  | JBool b => b
  | JNum n => negb (Z.eqb n 0)
  | JStr s => negb (String.eqb s "")
  | JDate _ | JArr _ | JObj _ => true
  end.

(** [a === b].  Dates, arrays and objects compare by reference; the two
    sides of every comparison in the handlers come from different
    documents (the request body and the queue file), so two such values
    are never the same reference. *)
Definition strict_eq (a b : jsval) : bool :=
  match a, b with
  | JUndefined, JUndefined => true
  | JNull, JNull => true
  | JBool x, JBool y => Bool.eqb x y
  | JNum x, JNum y => Z.eqb x y
  | JStr x, JStr y => String.eqb x y
  | _, _ => false
  end.

(** [o.k]: the value of the property, [undefined] when it is absent. *)
Definition prop (o : order) (k : string) : jsval :=
  default JUndefined (o !! k).

(** [xs.includes(x)] (SameValueZero coincides with [===] here: there is
    no NaN among these values). *)
Definition includes (xs : list jsval) (x : jsval) : bool :=
  existsb (strict_eq x) xs.

(** ** The queue document *)

(** What [loadQueueData] returns and [saveQueueData] receives. *)
Record QueueData : Type := mkQueue {
  orders : list order;
  currentPrefix : jsval;
  currentNumber : jsval
}.

(** The durable side of the server: the queue document and whether the
    storage medium currently takes writes. *)
Record World : Type := mkWorld {
  queue : QueueData;
  writable : bool
}.

Definition order_ids (q : QueueData) : list jsval :=
  map (λ o : order, prop o "id") (orders q).

(** ** Notifications *)

Inductive channel : Type := Email | WhatsAppAdmin | WhatsAppCustomer.

(** One constructor per service method the queue routes call. *)
Inductive notification : Type :=
| SendNewOrderNotification (o : order)
    (* emailService.sendNewOrderNotification(order) *)
| NotifyAdminsAboutNewOrder (o : order)
    (* whatsappService.notifyAdminsAboutNewOrder(order) *)
| NotifyCustomerAboutOrder (o : order) (phone : jsval)
    (* whatsappService.notifyCustomerAboutOrder(order, customerPhone) *)
| NotifyCustomerAboutStatusUpdate (o : order) (phone : jsval).
    (* whatsappService.notifyCustomerAboutStatusUpdate(order, customerPhone) *)

Definition channel_of (n : notification) : channel :=
  match n with
  | SendNewOrderNotification _ => Email
  | NotifyAdminsAboutNewOrder _ => WhatsAppAdmin
  | NotifyCustomerAboutOrder _ _ => WhatsAppCustomer
  | NotifyCustomerAboutStatusUpdate _ _ => WhatsAppCustomer
  end.

(** A service method returns a promise; it settles one of two ways. *)
Inductive outcome : Type :=
| Fulfilled (sent : bool)
| Rejected.

(** What a handler does to the outside, in program order. *)
Inductive effect : Type :=
| Saved (q : QueueData)
| Dispatched (n : notification).

(** Everything a handler reads from its surroundings: the channel
    adapters, the clock and the [Date] constructor. *)
Record Env : Type := mkEnv {
  adapter : notification → outcome;
  (* the instant [new Date()] yields while the i-th array element is
     being processed *)
  now : nat → Z;
  (* the time value of [new Date(v)] *)
  date_value : jsval → Z
}.

(** ** Handler computations *)

(** A statement either completes with a value or throws. *)
Inductive completion (A : Type) : Type :=
| Normal (a : A)
| Thrown.
Arguments Normal {A} a.
Arguments Thrown {A}.

(** A computation runs against the world and yields its completion, the
    world it leaves behind and the effects it performed. *)
Definition M (A : Type) : Type := World → completion A * World * list effect.

Global Instance M_ret : MRet M := λ A a w, (Normal a, w, []).

Global Instance M_bind : MBind M := λ A B k c w,
  match c w with
  | (Normal a, w1, e1) =>
      match k a w1 with
      | (r, w2, e2) => (r, w2, e1 ++ e2)
      end
  | (Thrown, w1, e1) => (Thrown, w1, e1)
  end.

Definition throw {A} : M A := λ w, (Thrown, w, []).

(** Modelled from the spec: [loadQueueData] of the module
    [./queue-storage], which is not part of the sources at hand.  It
    returns the full durable snapshot and never fails the caller. *)
Definition loadQueueData : M QueueData := λ w, (Normal (queue w), w, []).

(** Modelled from the spec: [saveQueueData] of the module
    [./queue-storage].  It replaces the whole durable snapshot in one
    step, or fails with an exception and leaves the snapshot as it was. *)
Definition saveQueueData (q : QueueData) : M unit :=
  λ w,
    if writable w
    then (Normal tt, mkWorld q (writable w), [Saved q])
    else (Thrown, w, []).

(** Calling a service method: the call happens now, the promise it
    returns settles as the adapter decides. *)
Definition call (env : Env) (n : notification) : M outcome :=
  λ w, (Normal (adapter env n), w, [Dispatched n]).

(** [await p]: a rejected promise throws at the await. *)
Definition await (p : outcome) : M bool :=
  match p with
  | Fulfilled b => mret b
  | Rejected => throw
  end.

(** [xs.forEach(f)] *)
Fixpoint forEach {A} (f : A → M unit) (xs : list A) : M unit :=
  match xs with
  | [] => mret tt
  | x :: xs' => f x ;; forEach f xs'
  end.

(** ** Responses *)

(** [res.status(code).json({ success, message, orderCount, ... })].
    [success] is [false] when the body has no such field; the
    [timestamp] and [error] fields are left out. *)
Record response : Type := mkResponse {
  code : nat;
  success : bool;
  message : string;
  orderCount : option nat
}.

Definition json_message (c : nat) (msg : string) : response :=
  mkResponse c false msg None.

(** What a route handler amounts to: the response it sends, the world
    it leaves behind and the effects it performed. *)
Definition handler : Type := World → response * World * list effect.

(** [try { body } catch (error) { return res.status(500).json(...) }] *)
Definition try_catch (body : M response) (on_error : response) : handler :=
  λ w,
    match body w with
    | (Normal r, w1, e1) => (r, w1, e1)
    | (Thrown, w1, e1) => (on_error, w1, e1)
    end.

Definition reply (h : handler) (w : World) : response := (h w).1.1.
Definition after (h : handler) (w : World) : World := (h w).1.2.
Definition effects (h : handler) (w : World) : list effect := (h w).2.

(** ** POST /api/queue/sync *)

(** The [orders] field of the body, as far as the handler inspects it:
    [!orders], [Array.isArray(orders)], and then the elements, which
    are order objects. *)
Inductive orders_field : Type :=
| OrdersFalsy                     (* undefined, null, false, 0 or the empty string *)
| OrdersNotArray                  (* any other value that is not an array *)
| OrdersArray (os : list order).

(** [const { orders, currentPrefix, currentNumber } = req.body] *)
Record sync_body : Type := mkSyncBody {
  sync_orders : orders_field;
  sync_currentPrefix : jsval;
  sync_currentNumber : jsval
}.

(** The callback of [orders.map] (lines 608-618): a missing creation
    date is set to the current instant, then the order is copied with
    [createdAt] turned into a [Date]. *)
Definition process_order (env : Env) (i : nat) (o : order) : order :=
  let o1 :=
    if negb (truthy (prop o "createdAt"))
    then <["createdAt" := JDate (now env i)]> o
    else o in
  <["createdAt" := JDate (date_value env (prop o1 "createdAt"))]> o1.

(** The callback of [newOrders.forEach] (lines 592-600).  It is an
    [async] function: it runs up to its first [await], that is, it calls
    the e-mail service, and returns; whatever the promise does later is
    handled inside the callback's own [try]/[catch]. *)
Definition notify_new_order (env : Env) (o : order) : M unit :=
  call env (SendNewOrderNotification o) ;; mret tt.

(** [orders.filter(order => !currentOrderIds.includes(order.id))] *)
Definition new_orders (currentOrderIds : list jsval) (os : list order) : list order :=
  List.filter (λ o : order, negb (includes currentOrderIds (prop o "id"))) os.

Definition sync_try (env : Env) (b : sync_body) : M response :=
  match sync_orders b with
  | OrdersFalsy =>
      mret (json_message 400 "Dados inválidos: orders não definido")
  | OrdersNotArray =>
      mret (json_message 400 "Dados inválidos: orders deve ser um array")
  | OrdersArray os =>
      if negb (truthy (sync_currentPrefix b)) then
        mret (json_message 400 "Dados inválidos: currentPrefix não definido")
      else if negb (truthy (sync_currentNumber b)) then
        mret (json_message 400 "Dados inválidos: currentNumber não definido")
      else
        currentData ← loadQueueData;
        let currentOrderIds := order_ids currentData in
        let newOrders := new_orders currentOrderIds os in
        forEach (notify_new_order env) newOrders ;;
        let processedOrders := imap (process_order env) os in
        saveQueueData
          (mkQueue processedOrders (sync_currentPrefix b) (sync_currentNumber b)) ;;
        mret (mkResponse 200 true "Dados sincronizados com sucesso"
                (Some (length processedOrders)))
  end.

Definition sync (env : Env) (b : sync_body) : handler :=
  try_catch (sync_try env b) (json_message 500 "Erro interno do servidor").

(** ** POST /api/queue/add-and-notify *)

(** [const { order, customerPhone } = req.body].  [None] stands for a
    missing (or otherwise falsy) [order]. *)
Record add_body : Type := mkAddBody {
  add_order : option order;
  add_customerPhone : jsval
}.

(** [p.catch(err => null)]: the derived promise never rejects. *)
Definition catch_null (p : outcome) : outcome :=
  match p with
  | Fulfilled b => Fulfilled b
  | Rejected => Fulfilled false
  end.

(** [await Promise.allSettled(ps)] never throws. *)
Definition await_allSettled (ps : list outcome) : M (list outcome) := mret ps.

Definition add_and_notify_try (env : Env) (b : add_body) : M response :=
  match add_order b with
  | None => mret (json_message 400 "Dados do pedido não fornecidos")
  | Some o =>
      queueData ← loadQueueData;
      (* queueData.orders.push(order) *)
      let queueData1 :=
        mkQueue (orders queueData ++ [o])
                (currentPrefix queueData) (currentNumber queueData) in
      saveQueueData queueData1 ;;
      p1 ← call env (SendNewOrderNotification o);
      p2 ← call env (NotifyAdminsAboutNewOrder o);
      ps ← (if truthy (add_customerPhone b)
            then p3 ← call env (NotifyCustomerAboutOrder o (add_customerPhone b));
                 mret [catch_null p1; catch_null p2; catch_null p3]
            else mret [catch_null p1; catch_null p2]);
      await_allSettled ps ;;
      mret (mkResponse 201 true "Pedido adicionado e notificações enviadas" None)
  end.

Definition add_and_notify (env : Env) (b : add_body) : handler :=
  try_catch (add_and_notify_try env b)
            (json_message 500 "Erro interno do servidor").

(** ** POST /api/queue/update-status *)

(** [const { orderId, status, customerPhone } = req.body] *)
Record status_body : Type := mkStatusBody {
  st_orderId : jsval;
  st_status : jsval;
  st_customerPhone : jsval
}.

(** [orders.findIndex(order => order.id === orderId)], together with
    the element at that index, [orders[orderIndex]]; [None] is -1. *)
Definition findIndex (orderId : jsval) (os : list order) : option (nat * order) :=
  list_find (λ o : order, strict_eq (prop o "id") orderId = true) os.

Definition update_status_try (env : Env) (b : status_body) : M response :=
  if negb (truthy (st_orderId b)) || negb (truthy (st_status b)) then
    mret (json_message 400 "ID do pedido e status são obrigatórios")
  else
    queueData ← loadQueueData;
    match findIndex (st_orderId b) (orders queueData) with
    | None => mret (json_message 404 "Pedido não encontrado")
    | Some (orderIndex, o) =>
        (* queueData.orders[orderIndex].status = status *)
        let o1 : order := <["status" := st_status b]> o in
        let queueData1 :=
          mkQueue (<[orderIndex := o1]> (orders queueData))
                  (currentPrefix queueData) (currentNumber queueData) in
        saveQueueData queueData1 ;;
        (if truthy (st_customerPhone b) then
           p ← call env (NotifyCustomerAboutStatusUpdate o1 (st_customerPhone b));
           await p ;; mret tt
         else mret tt) ;;
        mret (mkResponse 200 true "Status atualizado e cliente notificado" None)
    end.

Definition update_status (env : Env) (b : status_body) : handler :=
  try_catch (update_status_try env b)
            (json_message 500 "Erro interno do servidor").

(** ** Sample data *)

Module Sample.

Definition order_with_id (id : string) : order := {[ "id" := JStr id ]}.

Definition time_of (v : jsval) : Z :=
  match v with
  | JDate t => t
  | JNum n => n
  | _ => 0%Z
  end.

(** Every channel adapter delivers. *)
Definition env_ok : Env :=
  mkEnv (λ _, Fulfilled true) (λ _, 1000%Z) time_of.

(** Every channel adapter rejects its promise. *)
Definition env_down : Env :=
  mkEnv (λ _, Rejected) (λ _, 1000%Z) time_of.

Definition world_of (os : list order) : World :=
  mkWorld (mkQueue os (JStr "A") (JNum 7)) true.

End Sample.

(** ** Derived notions *)

Definition dispatch_email (o : order) : effect :=
  Dispatched (SendNewOrderNotification o).

(** The document an accepted sync writes. *)
Definition sync_document (env : Env) (os : list order) (p n : jsval) : QueueData :=
  mkQueue (imap (process_order env) os) p n.

Definition add_document (q : QueueData) (o : order) : QueueData :=
  mkQueue (orders q ++ [o]) (currentPrefix q) (currentNumber q).

(** The service calls of add-and-notify, in program order. *)
Definition add_notifications (o : order) (phone : jsval) : list notification :=
  SendNewOrderNotification o :: NotifyAdminsAboutNewOrder o ::
  (if truthy phone then [NotifyCustomerAboutOrder o phone] else []).

Definition status_document (q : QueueData) (i : nat) (o : order) (st : jsval)
  : QueueData :=
  mkQueue (<[i := <["status" := st]> o]> (orders q))
          (currentPrefix q) (currentNumber q).

(** Every service call of the request comes after a save of the
    request. *)
Definition save_precedes_dispatch (es : list effect) : Prop :=
  ∀ i n, es !! i = Some (Dispatched n) →
         ∃ j q, j < i ∧ es !! j = Some (Saved q).

(** The service calls among the effects of a request, in order. *)
Definition dispatched (es : list effect) : list notification :=
  omap (λ e, match e with Dispatched n => Some n | Saved _ => None end) es.

Definition dispatched_channels (es : list effect) : list channel :=
  channel_of <$> dispatched es.

(** No two orders of the document share an id. *)
Definition unique_ids (q : QueueData) : Prop := NoDup (order_ids q).

(** ** The statements of the design document *)

(** The statement of the design document: an accepted sync keeps every
    order the server held, whether or not the client sent it. *)
Definition sync_keeps_server_orders (env : Env) (b : sync_body) (w : World) : Prop :=
  code (reply (sync env b) w) = 200 →
  ∀ id, id ∈ order_ids (queue w) →
        id ∈ order_ids (queue (after (sync env b) w)).




(** The statement of the design document for one new-order event:
    e-mail and admin WhatsApp always, customer WhatsApp exactly when a
    customer phone came with the request. *)
Definition new_order_channels_as_stated (phone : jsval) (cs : list channel) : Prop :=
  Email ∈ cs ∧ WhatsAppAdmin ∈ cs
  ∧ (WhatsAppCustomer ∈ cs ↔ truthy phone = true).

Definition valid_statuses : list jsval :=
  JStr <$> ["received"; "confirmed"; "preparing"; "out-for-delivery";
            "completed"; "canceled"].

(** The statement of the design document: a status outside the six is
    refused, nothing is written and nothing is sent. *)
Definition status_validation_as_stated
    (env : Env) (b : status_body) (w : World) : Prop :=
  st_status b ∉ valid_statuses →
  success (reply (update_status env b) w) = false
  ∧ after (update_status env b) w = w
  ∧ effects (update_status env b) w = [].

(** ** Further notions for the queue routes *)

(** Values that [===] compares by content: two primitives read from
    different documents are equal when they look equal. *)
Definition is_primitive (v : jsval) : bool :=
  match v with
  | JUndefined | JNull | JBool _ | JNum _ | JStr _ => true
  | JDate _ | JArr _ | JObj _ => false
  end.


(** What [new Date(order.createdAt)] is built from in the callback of
    [orders.map]: the date sent, or the current instant when none was
    sent. *)
Definition createdAt_source (env : Env) (i : nat) (o : order) : jsval :=
  if truthy (prop o "createdAt") then prop o "createdAt" else JDate (now env i).

(** The world update-status leaves behind; it does not depend on the
    channel adapters. *)
Definition status_world (b : status_body) (w : World) : World :=
  if truthy (st_orderId b) && truthy (st_status b) && writable w then
    match findIndex (st_orderId b) (orders (queue w)) with
    | Some (i, o) => mkWorld (status_document (queue w) i o (st_status b)) true
    | None => w
    end
  else w.

(** ** Service routes: common notions *)

(** A call into a collaborator (the database, bcrypt, the WhatsApp or
    e-mail service) returns or resolves with a value, or throws or
    rejects. *)
Inductive settled (A : Type) : Type :=
| Resolves (a : A)
| Rejects.
Arguments Resolves {A} a.
Arguments Rejects {A}.

(** [res.status(code).json(body)] *)
Record api_reply : Type := mkReply {
  api_code : nat;
  api_body : jsval
}.

(** [{ message: msg }] *)
Definition message_body (msg : string) : jsval := JObj {[ "message" := JStr msg ]}.

(** [v.k] for a value [v] of any kind: reading a property of
    [undefined] or [null] throws; a primitive, an array or a date has no
    property of the names read here. *)
Definition get_prop (v : jsval) (k : string) : completion jsval :=
  match v with
  | JUndefined | JNull => Thrown
  | JObj m => Normal (prop m k)
  | _ => Normal JUndefined
  end.

(** [a || b] *)
Definition js_or (a b : jsval) : jsval := if truthy a then a else b.

(** ** GET /api/webhook/whatsapp *)

(** [process.env.WHATSAPP_VERIFY_TOKEN || 'falecomigo_whatsapp_token'];
    a variable of the environment is a string or is not set. *)
Definition verifyToken (WHATSAPP_VERIFY_TOKEN : option string) : string :=
  match WHATSAPP_VERIFY_TOKEN with
  | Some s => if String.eqb s "" then "falecomigo_whatsapp_token" else s
  | None => "falecomigo_whatsapp_token"
  end.

Inductive webhook_reply : Type :=
| SendChallenge (challenge : jsval)   (* res.status(200).send(challenge) *)
| SendStatus (c : nat).               (* res.sendStatus(c) *)

(** The three query parameters are what the query-string parser made
    of them: a string, an array, an object, or [undefined]. *)
Definition webhook_verify (WHATSAPP_VERIFY_TOKEN : option string)
    (mode token challenge : jsval) : webhook_reply :=
  if strict_eq mode (JStr "subscribe")
     && strict_eq token (JStr (verifyToken WHATSAPP_VERIFY_TOKEN))
  then SendChallenge challenge
  else SendStatus 403.

(** ** POST /api/webhook/whatsapp *)

(** [JSON.stringify(req.body).substring(0, 200)]: [JSON.stringify]
    yields [undefined] for an undefined body, and the method call on it
    throws. *)
Definition log_body (body : jsval) : completion unit :=
  match body with
  | JUndefined => Thrown
  | _ => Normal tt
  end.

(** The reply and whether [whatsappService.processWhatsAppWebhook] was
    called.  [process] is that method. *)
Definition webhook_receive (process : jsval → settled jsval) (body : jsval)
  : api_reply * bool :=
  match log_body body with
  | Thrown => (mkReply 200 (JObj {[ "success" := JBool false ]}), false)
  | Normal _ =>
      match process body with
      | Rejects => (mkReply 200 (JObj {[ "success" := JBool false ]}), true)
      | Resolves result =>
          (* if (result.success) { log } else { log } *)
          match get_prop result "success" with
          | Thrown => (mkReply 200 (JObj {[ "success" := JBool false ]}), true)
          | Normal _ => (mkReply 200 (JObj {[ "success" := JBool true ]}), true)
          end
      end
  end.

(** ** POST /api/products *)

(** The object handed to [menuStorage.createProduct] (lines 240-246);
    [body] is [req.body], [t] the instant of [new Date()]. *)
Definition productData (t : Z) (body : order) : order :=
  <["available" := JBool (negb (strict_eq (prop body "available") (JBool false)))]>
  (<["isPromotion" := js_or (prop body "isPromotion") (JBool false)]>
  (<["isFeatured" := js_or (prop body "isFeatured") (JBool false)]>
  (<["createdAt" := JDate t]> body))).

(** ** Routes over the database *)

(** The calls the routes below make into [storage], [bcrypt] and the
    session, in the order made. *)
Inductive backend_call : Type :=
| GetUserByEmail (email : jsval)
| BcryptCompare (password hash : jsval)
| SessionSetUser (user : order)
| UpdateOrderStatus (id status : jsval)
| UpdatePaymentStatus (id status : jsval)
| GetOrder (id : jsval)
| GetPaymentByOrder (orderId : jsval)
| CreatePayment (data : order)
| GetOrdersByUser (userId : jsval)
| GetOrderWithItems (id : jsval)
| CreateOrder (data : order) (items : list jsval).

(** How the collaborators answer.  A lookup that finds nothing resolves
    with [undefined], here [None]. *)
Record Backend : Type := mkBackend {
  getUserByEmail : jsval → settled (option order);
  bcrypt_compare : jsval → jsval → settled bool;
  updateOrderStatus : jsval → jsval → settled (option order);
  updatePaymentStatus : jsval → jsval → settled (option order);
  getOrder : jsval → settled (option order);
  getPaymentByOrder : jsval → settled (option order);
  createPayment : order → settled order;
  getOrdersByUser : jsval → settled jsval;
  getOrderWithItems : jsval → settled (option order);
  createOrder : order → list jsval → settled order
}.

(** A route body: how it completes and the calls it made. *)
Definition Svc (A : Type) : Type := (completion A * list backend_call)%type.

Global Instance Svc_ret : MRet Svc := λ A a, (Normal a, []).

Global Instance Svc_bind : MBind Svc := λ A B k c,
  match c with
  | (Normal a, l1) =>
      match k a with
      | (r, l2) => (r, l1 ++ l2)
      end
  | (Thrown, l1) => (Thrown, l1)
  end.

(** [await f(args)]: the call is made; a rejection throws. *)
Definition asked {A} (c : backend_call) (answer : settled A) : Svc A :=
  match answer with
  | Resolves a => (Normal a, [c])
  | Rejects => (Thrown, [c])
  end.

(** An effect on the request itself, which cannot fail. *)
Definition did (c : backend_call) : Svc unit := (Normal tt, [c]).

(** A completion of an expression, as a route body. *)
Definition evaluated {A} (c : completion A) : Svc A := (c, []).

(** [try { body } catch (error) { return res.status(500).json(...) }] *)
Definition svc_try (body : Svc api_reply) (on_error : api_reply)
  : api_reply * list backend_call :=
  match body with
  | (Normal r, l) => (r, l)
  | (Thrown, l) => (on_error, l)
  end.

(** *** The middlewares (lines 23-38) *)

(** A middleware answers itself ([Some]) or calls [next()] ([None]).
    [sessionUser] is [req.session.user]. *)
Definition authMiddleware (sessionUser : jsval) : option api_reply :=
  if negb (truthy sessionUser)
  then Some (mkReply 401 (message_body "Usuário não autenticado"))
  else None.

(** [!req.session.user || req.session.user.type !== 'admin'] *)
Definition adminMiddleware (sessionUser : jsval) : option api_reply :=
  if negb (truthy sessionUser)
  then Some (mkReply 403 (message_body "Acesso restrito a administradores"))
  else
    match get_prop sessionUser "type" with
    | Normal t =>
        if negb (strict_eq t (JStr "admin"))
        then Some (mkReply 403 (message_body "Acesso restrito a administradores"))
        else None
    | Thrown => Some (mkReply 403 (message_body "Acesso restrito a administradores"))
    end.

(** [app.get(path, middleware, handler)] *)
Definition guarded {A} (mw : option api_reply) (h : api_reply * list A)
  : api_reply * list A :=
  match mw with
  | Some r => (r, [])
  | None => h
  end.

(** *** POST /api/auth/login (lines 42-79) *)

(** [{ id: user.id, name: user.name, email: user.email, type: user.type }] *)
Definition session_user (user : order) : order :=
  {[ "id" := prop user "id"; "name" := prop user "name";
     "email" := prop user "email"; "type" := prop user "type" ]}.

(** [email] and [password] are the fields of the body; [has_session]
    tells whether [req.session] is there. *)
Definition login (be : Backend) (has_session : bool) (email password : jsval)
  : api_reply * list backend_call :=
  svc_try
    (if negb (truthy email) || negb (truthy password) then
       mret (mkReply 400 (message_body "Email e senha são obrigatórios"))
     else
       user ← asked (GetUserByEmail email) (getUserByEmail be email);
       match user with
       | None => mret (mkReply 401 (message_body "Credenciais inválidas"))
       | Some user =>
           isPasswordValid ←
             asked (BcryptCompare password (prop user "password"))
                   (bcrypt_compare be password (prop user "password"));
           if negb isPasswordValid then
             mret (mkReply 401 (message_body "Credenciais inválidas"))
           else
             (if has_session then did (SessionSetUser (session_user user))
              else mret tt) ;;
             (* const { password: _, ...userWithoutPassword } = user *)
             let userWithoutPassword : order := delete "password" user in
             mret (mkReply 200 (JObj {[ "user" := JObj userWithoutPassword ]}))
       end)
    (mkReply 500 (message_body "Erro interno do servidor")).

(** *** GET /api/users/:userId/orders and GET /api/orders/:id *)

(** [sessionUser.id !== x && sessionUser.type !== 'admin'], for a
    session user that passed [authMiddleware]. *)
Definition not_authorized (sessionUser x : jsval) : Svc bool :=
  sid ← evaluated (get_prop sessionUser "id");
  if negb (strict_eq sid x) then
    t ← evaluated (get_prop sessionUser "type");
    mret (negb (strict_eq t (JStr "admin")))
  else mret false.

(** [userId] is [parseInt(req.params.userId)], [None] when it is NaN. *)
Definition user_orders (be : Backend) (sessionUser : jsval) (userId : option Z)
  : api_reply * list backend_call :=
  guarded (authMiddleware sessionUser)
    (svc_try
       (match userId with
        | None => mret (mkReply 400 (message_body "ID de usuário inválido"))
        | Some userId =>
            denied ← not_authorized sessionUser (JNum userId);
            if (denied : bool) then
              mret (mkReply 403
                      (message_body "Não autorizado a ver pedidos de outro usuário"))
            else
              orders ← asked (GetOrdersByUser (JNum userId))
                             (getOrdersByUser be (JNum userId));
              mret (mkReply 200 orders)
        end)
       (mkReply 500 (message_body "Erro ao buscar pedidos do usuário"))).

(** [id] is [parseInt(req.params.id)], [None] when it is NaN. *)
Definition order_details (be : Backend) (sessionUser : jsval) (id : option Z)
  : api_reply * list backend_call :=
  guarded (authMiddleware sessionUser)
    (svc_try
       (match id with
        | None => mret (mkReply 400 (message_body "ID inválido"))
        | Some id =>
            orderDetails ← asked (GetOrderWithItems (JNum id))
                                 (getOrderWithItems be (JNum id));
            match orderDetails with
            | None => mret (mkReply 404 (message_body "Pedido não encontrado"))
            | Some orderDetails =>
                owner ← evaluated (get_prop (prop orderDetails "order") "userId");
                denied ← not_authorized sessionUser owner;
                if (denied : bool) then
                  mret (mkReply 403 (message_body "Não autorizado a ver este pedido"))
                else mret (mkReply 200 (JObj orderDetails))
            end
        end)
       (mkReply 500 (message_body "Erro ao buscar detalhes do pedido"))).

(** *** PATCH /api/orders/:id/status (lines 380-407) *)

Definition order_statuses : list jsval :=
  JStr <$> ["pendente"; "confirmado"; "preparo"; "entrega"; "concluido"; "cancelado"].

(** [id] is [parseInt(req.params.id)], [None] when it is NaN; [status]
    is [req.body.status]. *)
Definition order_status (be : Backend) (sessionUser : jsval)
    (id : option Z) (status : jsval) : api_reply * list backend_call :=
  guarded (adminMiddleware sessionUser)
    (svc_try
       (match id with
        | None => mret (mkReply 400 (message_body "ID inválido"))
        | Some id =>
            if negb (truthy status) || negb (includes order_statuses status) then
              mret (mkReply 400 (message_body "Status inválido"))
            else
              updatedOrder ← asked (UpdateOrderStatus (JNum id) status)
                                   (updateOrderStatus be (JNum id) status);
              match updatedOrder with
              | None => mret (mkReply 404 (message_body "Pedido não encontrado"))
              | Some updatedOrder =>
                  mret (mkReply 200
                          (JObj {[ "message" := JStr "Status do pedido atualizado com sucesso";
                                   "order" := JObj updatedOrder ]}))
              end
        end)
       (mkReply 500 (message_body "Erro ao atualizar status do pedido"))).

(** *** PATCH /api/payments/:id/status (lines 492-529) *)

Definition payment_statuses : list jsval :=
  JStr <$> ["pendente"; "aprovado"; "recusado"].

(** [id] is [parseInt(req.params.id)], [None] when it is NaN; [status]
    is [req.body.status]. *)
Definition payment_status (be : Backend) (sessionUser : jsval)
    (id : option Z) (status : jsval) : api_reply * list backend_call :=
  guarded (adminMiddleware sessionUser)
    (svc_try
       (match id with
        | None => mret (mkReply 400 (message_body "ID inválido"))
        | Some id =>
            if negb (truthy status) || negb (includes payment_statuses status) then
              mret (mkReply 400 (message_body "Status inválido"))
            else
              updatedPayment ← asked (UpdatePaymentStatus (JNum id) status)
                                     (updatePaymentStatus be (JNum id) status);
              match updatedPayment with
              | None => mret (mkReply 404 (message_body "Pagamento não encontrado"))
              | Some updatedPayment =>
                  let orderId := prop updatedPayment "orderId" in
                  (if strict_eq status (JStr "aprovado") then
                     asked (UpdateOrderStatus orderId (JStr "preparo"))
                           (updateOrderStatus be orderId (JStr "preparo")) ;;
                     mret tt
                   else mret tt) ;;
                  (if strict_eq status (JStr "recusado") then
                     asked (UpdateOrderStatus orderId (JStr "cancelado"))
                           (updateOrderStatus be orderId (JStr "cancelado")) ;;
                     mret tt
                   else mret tt) ;;
                  mret (mkReply 200
                          (JObj {[ "message" := JStr "Status do pagamento atualizado com sucesso";
                                   "payment" := JObj updatedPayment ]}))
              end
        end)
       (mkReply 500 (message_body "Erro ao atualizar status do pagamento"))).

(** *** Validation errors (lines 12-19) *)

(** A segment of the path of a zod issue: a property name or an array
    index. *)
Inductive segment : Type :=
| Key (s : string)
| Index (n : N).

Record issue : Type := mkIssue {
  issue_path : list segment;
  issue_message : string
}.

Definition segment_string (x : segment) : string :=
  match x with
  | Key s => s
  | Index n => pretty n
  end.

(** [path.join('.')] *)
Fixpoint join_dot (path : list segment) : string :=
  match path with
  | [] => ""
  | [x] => segment_string x
  | x :: rest => segment_string x +:+ "." +:+ join_dot rest
  end.

Definition error_entry (path message : string) : jsval :=
  JObj {[ "path" := JStr path; "message" := JStr message ]}.

Definition handleZodError (errors : list issue) : jsval :=
  JObj {[ "message" := JStr "Erro de validação";
          "errors" := JArr (map (λ e, error_entry (join_dot (issue_path e))
                                                   (issue_message e)) errors) ]}.

(** What [schema.safeParse(x)] returns: the parsed data, or the issues. *)
Inductive parsed : Type :=
| ParseOk (data : order)
| ParseError (errors : list issue).

(** *** POST /api/payments (lines 410-448) *)

(** [result] is [insertPaymentSchema.safeParse(req.body)]. *)
Definition create_payment (be : Backend) (sessionUser : jsval) (result : parsed)
  : api_reply * list backend_call :=
  guarded (authMiddleware sessionUser)
    (svc_try
       (match result with
        | ParseError errors => mret (mkReply 400 (handleZodError errors))
        | ParseOk data =>
            let orderId := prop data "orderId" in
            order ← asked (GetOrder orderId) (getOrder be orderId);
            match order with
            | None => mret (mkReply 404 (message_body "Pedido não encontrado"))
            | Some _ =>
                existingPayment ← asked (GetPaymentByOrder orderId)
                                        (getPaymentByOrder be orderId);
                match existingPayment with
                | Some _ =>
                    mret (mkReply 400
                            (message_body "Já existe um pagamento para este pedido"))
                | None =>
                    newPayment ← asked (CreatePayment data) (createPayment be data);
                    asked (UpdateOrderStatus orderId (JStr "confirmado"))
                          (updateOrderStatus be orderId (JStr "confirmado")) ;;
                    mret (mkReply 201
                            (JObj {[ "message" := JStr "Pagamento registrado com sucesso";
                                     "payment" := JObj newPayment ]}))
                end
            end
        end)
       (mkReply 500 (message_body "Erro ao registrar pagamento"))).

(** *** POST /api/orders, the check of the items (lines 359-365) *)

(** [items] as the check [!items || !Array.isArray(items) ||
    items.length === 0] sees it. *)
Inductive items_field : Type :=
| ItemsFalsy
| ItemsNotArray
| ItemsArray (items : list jsval).

(** The body of the 400 reply for bad items, written out in the route. *)
Definition items_error : jsval :=
  JObj {[ "message" := JStr "Erro de validação";
          "errors" := JArr [ JObj {[ "path" := JStr "items";
                                     "message" := JStr "Itens do pedido são obrigatórios" ]} ] ]}.

(** [result] is [insertOrderSchema.safeParse(orderData)]; the route has
    no middleware. *)
Definition create_order (be : Backend) (result : parsed) (items : items_field)
  : api_reply * list backend_call :=
  svc_try
    (match result with
     | ParseError errors => mret (mkReply 400 (handleZodError errors))
     | ParseOk data =>
         match items with
         | ItemsFalsy | ItemsNotArray => mret (mkReply 400 items_error)
         | ItemsArray l =>
             if Nat.eqb (length l) 0 then mret (mkReply 400 items_error)
             else
               newOrder ← asked (CreateOrder data l) (createOrder be data l);
               mret (mkReply 201
                       (JObj {[ "message" := JStr "Pedido criado com sucesso";
                                "order" := JObj newOrder ]}))
         end
     end)
    (mkReply 500 (message_body "Erro ao criar pedido")).


(** ** E-mail recipients (lines 879-904) *)

(** A string as a regular expression without the [u] flag reads it:
    the list of its UTF-16 code units. *)
Abbreviation units := (list N).

(** Regular expressions, as far as the literal of the route needs them;
    [Class p] is a character class, given by its test. *)
Inductive regex : Type :=
| Void
| Eps
| Class (p : N → bool)
| Cat (r1 r2 : regex)
| Alt (r1 r2 : regex)
| Star (r : regex).

(** [r+] *)
Definition Plus (r : regex) : regex := Cat r (Star r).

Fixpoint nullable (r : regex) : bool :=
  match r with
  | Void => false
  | Eps => true
  | Class _ => false
  | Cat r1 r2 => nullable r1 && nullable r2
  | Alt r1 r2 => nullable r1 || nullable r2
  | Star _ => true
  end.

(** What is left of [r] after reading the code unit [c]. *)
Fixpoint deriv (c : N) (r : regex) : regex :=
  match r with
  | Void | Eps => Void
  | Class p => if p c then Eps else Void
  | Cat r1 r2 =>
      if nullable r1
      then Alt (Cat (deriv c r1) r2) (deriv c r2)
      else Cat (deriv c r1) r2
  | Alt r1 r2 => Alt (deriv c r1) (deriv c r2)
  | Star r1 => Cat (deriv c r1) (Star r1)
  end.

(** [/^r$/.test(s)]: the whole string is in the language of [r]. *)
Fixpoint regex_test (r : regex) (s : units) : bool :=
  match s with
  | [] => nullable r
  | c :: s' => regex_test (deriv c r) s'
  end.

(** The class [\s]: the white space and line terminator code units of
    ECMAScript. *)
Definition is_space (c : N) : bool :=
  (N.leb 9 c && N.leb c 13)
  || N.eqb c 32 || N.eqb c 160 || N.eqb c 5760
  || (N.leb 8192 c && N.leb c 8202)
  || N.eqb c 8232 || N.eqb c 8233 || N.eqb c 8239 || N.eqb c 8287
  || N.eqb c 12288 || N.eqb c 65279.

(** The class [[^\s@]]. *)
Definition plain (c : N) : bool := negb (is_space c || N.eqb c 64).

Definition lit (x : N) : regex := Class (N.eqb x).

(** [/^[^\s@]+@[^\s@]+\.[^\s@]+$/] *)
Definition emailRegex : regex :=
  Cat (Plus (Class plain))
      (Cat (lit 64) (Cat (Plus (Class plain)) (Cat (lit 46) (Plus (Class plain))))).

(** The language of a regular expression. *)
Inductive matches : regex → units → Prop :=
| matches_eps : matches Eps []
| matches_class p c : p c = true → matches (Class p) [c]
| matches_cat r1 r2 s1 s2 :
    matches r1 s1 → matches r2 s2 → matches (Cat r1 r2) (s1 ++ s2)
| matches_alt_l r1 r2 s : matches r1 s → matches (Alt r1 r2) s
| matches_alt_r r1 r2 s : matches r2 s → matches (Alt r1 r2) s
| matches_star_nil r : matches (Star r) []
| matches_star_app r s1 s2 :
    matches r s1 → matches (Star r) s2 → matches (Star r) (s1 ++ s2).

(** The [email] of the body, as the first check sees it:
    [!email || typeof email !== 'string']. *)
Inductive email_field : Type :=
| EmailNotString
| EmailString (s : units).

(** The reply and the addresses handed to
    [emailService.addEstablishmentEmail], which is [add]. *)
Definition add_recipient (add : units → settled bool)
    (sessionUser : jsval) (email : email_field) : api_reply * list units :=
  guarded (adminMiddleware sessionUser)
    match email with
    | EmailNotString => (mkReply 400 (message_body "E-mail inválido"), [])
    | EmailString [] => (mkReply 400 (message_body "E-mail inválido"), [])
    | EmailString s =>
        if negb (regex_test emailRegex s) then
          (mkReply 400 (message_body "Formato de e-mail inválido"), [])
        else
          match add s with
          | Resolves true =>
              (mkReply 201 (message_body "E-mail adicionado com sucesso"), [s])
          | Resolves false =>
              (mkReply 409 (message_body "E-mail já está cadastrado"), [s])
          | Rejects =>
              (mkReply 500 (message_body "Erro ao adicionar e-mail"), [s])
          end
    end.

(** The code units of a string of ASCII characters. *)
Definition ascii_units (s : string) : units :=
  map Ascii.N_of_ascii (String.list_ascii_of_string s).

(** ** E-mail notifications on request (lines 927-1003) *)

(** The e-mail service as these routes use it. *)
Record EmailService : Type := mkEmailService {
  getEstablishmentEmails : settled (list units);
  testConnection : settled bool;
  sendNewOrderNotification : jsval → settled bool
}.

Inductive email_call : Type :=
| TestConnection
| SendNotification (order : jsval).

Definition EmailM (A : Type) : Type := (completion A * list email_call)%type.

Definition email_asked {A} (c : list email_call) (answer : settled A) : EmailM A :=
  match answer with
  | Resolves a => (Normal a, c)
  | Rejects => (Thrown, c)
  end.

Definition email_then {A B} (c : EmailM A) (k : A → EmailM B) : EmailM B :=
  match c with
  | (Normal a, l1) =>
      match k a with
      | (r, l2) => (r, l1 ++ l2)
      end
  | (Thrown, l1) => (Thrown, l1)
  end.

Definition email_try (body : EmailM api_reply) (on_error : api_reply)
  : api_reply * list email_call :=
  match body with
  | (Normal r, l) => (r, l)
  | (Thrown, l) => (on_error, l)
  end.

(** POST /api/email/notify; [order] is [req.body.order]. *)
Definition email_notify (es : EmailService) (order : jsval)
  : api_reply * list email_call :=
  email_try
    (if negb (truthy order) then
       (Normal (mkReply 400 (message_body "Dados do pedido ausentes")), [])
     else
       email_then (email_asked [] (getEstablishmentEmails es)) (λ emails,
         if Nat.eqb (length emails) 0 then
           (Normal (mkReply 200 (message_body "Nenhum e-mail para notificar")), [])
         else
           email_then (email_asked [SendNotification order]
                         (sendNewOrderNotification es order)) (λ sent : bool,
             if sent then
               (Normal (mkReply 200
                          (message_body "E-mail de notificação enviado com sucesso")), [])
             else
               (Normal (mkReply 500
                          (message_body "Falha ao enviar e-mail de notificação")), []))))
    (mkReply 500 (message_body "Erro ao enviar notificação por e-mail")).

(** POST /api/admin/email/test; [testOrder] is the order built in the
    route. *)
Definition email_test (es : EmailService) (sessionUser testOrder : jsval)
  : api_reply * list email_call :=
  guarded (adminMiddleware sessionUser)
    (email_try
       (email_then (email_asked [] (getEstablishmentEmails es)) (λ emails,
          if Nat.eqb (length emails) 0 then
            (Normal (mkReply 400
                       (message_body "Nenhum e-mail cadastrado para receber notificações")),
             [])
          else
            email_then (email_asked [TestConnection] (testConnection es))
              (λ isConnected : bool,
               if negb isConnected then
                 (Normal (mkReply 500
                            (message_body
                               "Não foi possível conectar ao servidor de e-mail. Verifique as configurações.")),
                  [])
               else
                 email_then (email_asked [SendNotification testOrder]
                               (sendNewOrderNotification es testOrder)) (λ sent : bool,
                   if sent then
                     (Normal (mkReply 200
                                (message_body "E-mail de teste enviado com sucesso")), [])
                   else
                     (Normal (mkReply 500
                                (message_body "Não foi possível enviar o e-mail de teste")),
                      [])))))
       (mkReply 500 (message_body "Erro ao enviar e-mail de teste"))).

(** ** Sample data for the service routes *)

(** A stored user. *)
Definition sample_user : order :=
  {[ "id" := JNum 7; "name" := JStr "Ana"; "email" := JStr "ana@example.com";
     "type" := JStr "cliente"; "password" := JStr "$2b$10$hash" ]}.

(** A database holding that user, where every write succeeds. *)
Definition sample_backend : Backend :=
  mkBackend
    (λ email, Resolves (if strict_eq email (JStr "ana@example.com")
                        then Some sample_user else None))
    (λ password hash, Resolves (strict_eq password (JStr "segredo")))
    (λ id status, Resolves (Some {[ "id" := id; "status" := status ]}))
    (λ id status, Resolves (Some {[ "id" := id; "status" := status;
                                    "orderId" := JNum 11 ]}))
    (λ id, Resolves (Some {[ "id" := id ]}))
    (λ orderId, Resolves None)
    (λ data, Resolves (<["id" := JNum 1]> data))
    (λ userId, Resolves (JArr []))
    (λ id, Resolves (Some {[ "order" := JObj {[ "id" := id; "userId" := JNum 7 ]} ]}))
    (λ data items, Resolves (<["id" := JNum 1]> data)).

(** The same database, with every order update failing. *)
Definition failing_orders_backend : Backend :=
  mkBackend (getUserByEmail sample_backend) (bcrypt_compare sample_backend)
    (λ _ _, Rejects)
    (updatePaymentStatus sample_backend) (getOrder sample_backend)
    (getPaymentByOrder sample_backend) (createPayment sample_backend)
    (getOrdersByUser sample_backend) (getOrderWithItems sample_backend)
    (createOrder sample_backend).

(** An e-mail service with the given recipients whose send settles as
    given. *)
Definition sample_email_service (recipients : list units) (sent : settled bool)
  : EmailService :=
  mkEmailService (Resolves recipients) (Resolves true) (λ _, sent).

(** ** Running the handlers *)

Example sync_sample :
  sync Sample.env_ok
       (mkSyncBody (OrdersArray [Sample.order_with_id "b"]) (JStr "B") (JNum 1))
       (Sample.world_of [Sample.order_with_id "a"])
  = (mkResponse 200 true "Dados sincronizados com sucesso" (Some 1),
     mkWorld (mkQueue [ {[ "id" := JStr "b"; "createdAt" := JDate 1000 ]} ]
                      (JStr "B") (JNum 1)) true,
     [ Dispatched (SendNewOrderNotification (Sample.order_with_id "b"));
       Saved (mkQueue [ {[ "id" := JStr "b"; "createdAt" := JDate 1000 ]} ]
                      (JStr "B") (JNum 1)) ]).
Proof. vm_compute. reflexivity. Qed.

Lemma forEach_notify env (xs : list order) w :
  forEach (notify_new_order env) xs w = (Normal tt, w, map dispatch_email xs).
Proof.
  induction xs as [|x xs IH]; [reflexivity|].
  cbn [forEach]. unfold mbind, M_bind at 1.
  unfold notify_new_order at 1, mbind, M_bind at 1, call, mret, M_ret. cbn.
  unfold mbind, M_bind in IH. rewrite IH. reflexivity.
Qed.

Lemma prop_insert_ne (o : order) k k' v :
  k ≠ k' → prop (<[k := v]> o) k' = prop o k'.
Proof. intros Hne. unfold prop. by rewrite lookup_insert_ne. Qed.

Lemma process_order_id env i (o : order) :
  prop (process_order env i o) "id" = prop o "id".
Proof.
  unfold process_order.
  destruct (negb (truthy (prop o "createdAt")));
    repeat (rewrite prop_insert_ne; [|done]); reflexivity.
Qed.

Lemma process_order_other env i (o : order) k :
  k ≠ "createdAt" → process_order env i o !! k = o !! k.
Proof.
  intros Hk. unfold process_order.
  destruct (negb (truthy (prop o "createdAt")));
    repeat (rewrite lookup_insert_ne; [|done]); reflexivity.
Qed.

Lemma imap_process_ids env (os : list order) :
  map (λ o : order, prop o "id") (imap (process_order env) os)
  = map (λ o : order, prop o "id") os.
Proof.
  apply list_eq; intros i.
  rewrite !list_lookup_fmap, list_lookup_imap.
  destruct (os !! i) as [o|]; cbn; [|done].
  by rewrite process_order_id.
Qed.

Lemma sync_accepted env os p n w :
  truthy p = true → truthy n = true → writable w = true →
  sync env (mkSyncBody (OrdersArray os) p n) w
  = (mkResponse 200 true "Dados sincronizados com sucesso" (Some (length os)),
     mkWorld (sync_document env os p n) true,
     map dispatch_email (new_orders (order_ids (queue w)) os)
       ++ [Saved (sync_document env os p n)]).
Proof.
  intros Hp Hn Hw. unfold sync, try_catch, sync_try. cbn.
  rewrite Hp, Hn. cbn.
  unfold mbind, M_bind, loadQueueData. cbn.
  pose proof (forEach_notify env (new_orders (order_ids (queue w)) os) w) as HF.
  unfold mbind, M_bind in HF |- *. rewrite HF.
  unfold saveQueueData. rewrite Hw. cbn.
  by rewrite length_imap.
Qed.

Lemma sync_write_failure env os p n w :
  truthy p = true → truthy n = true → writable w = false →
  sync env (mkSyncBody (OrdersArray os) p n) w
  = (json_message 500 "Erro interno do servidor", w,
     map dispatch_email (new_orders (order_ids (queue w)) os)).
Proof.
  intros Hp Hn Hw. unfold sync, try_catch, sync_try. cbn.
  rewrite Hp, Hn. cbn.
  unfold mbind, M_bind, loadQueueData. cbn.
  pose proof (forEach_notify env (new_orders (order_ids (queue w)) os) w) as HF.
  unfold mbind, M_bind in HF |- *. rewrite HF.
  unfold saveQueueData. rewrite Hw. cbn.
  by rewrite app_nil_r.
Qed.

Lemma sync_rejected_prefix env os p n w :
  truthy p = false →
  sync env (mkSyncBody (OrdersArray os) p n) w
  = (json_message 400 "Dados inválidos: currentPrefix não definido", w, []).
Proof.
  intros Hp. unfold sync, try_catch, sync_try. cbn. by rewrite Hp.
Qed.

Lemma sync_rejected_number env os p n w :
  truthy p = true → truthy n = false →
  sync env (mkSyncBody (OrdersArray os) p n) w
  = (json_message 400 "Dados inválidos: currentNumber não definido", w, []).
Proof.
  intros Hp Hn. unfold sync, try_catch, sync_try. cbn. by rewrite Hp, Hn.
Qed.

(** A sync answers 200 only on the accepting path. *)
Lemma sync_200_inv env b w :
  code (reply (sync env b) w) = 200 →
  ∃ os, sync_orders b = OrdersArray os
        ∧ truthy (sync_currentPrefix b) = true
        ∧ truthy (sync_currentNumber b) = true
        ∧ writable w = true.
Proof.
  destruct b as [[| |os] p n]; unfold reply; cbn; try discriminate.
  destruct (truthy p) eqn:Hp.
  2:{ rewrite sync_rejected_prefix by done. discriminate. }
  destruct (truthy n) eqn:Hn.
  2:{ rewrite sync_rejected_number by done. discriminate. }
  destruct (writable w) eqn:Hw.
  2:{ rewrite sync_write_failure by done. discriminate. }
  intros _. by exists os.
Qed.

Lemma add_and_notify_accepted env o phone w :
  writable w = true →
  add_and_notify env (mkAddBody (Some o) phone) w
  = (mkResponse 201 true "Pedido adicionado e notificações enviadas" None,
     mkWorld (add_document (queue w) o) true,
     Saved (add_document (queue w) o)
       :: map Dispatched (add_notifications o phone)).
Proof.
  intros Hw.
  unfold add_and_notify, try_catch, add_and_notify_try, add_notifications. cbn.
  unfold mbind, M_bind, loadQueueData, saveQueueData. cbn. rewrite Hw. cbn.
  by destruct (truthy phone).
Qed.

Lemma add_and_notify_write_failure env o phone w :
  writable w = false →
  add_and_notify env (mkAddBody (Some o) phone) w
  = (json_message 500 "Erro interno do servidor", w, []).
Proof.
  intros Hw.
  unfold add_and_notify, try_catch, add_and_notify_try. cbn.
  unfold mbind, M_bind, loadQueueData, saveQueueData. cbn. by rewrite Hw.
Qed.

Lemma add_and_notify_rejected env phone w :
  add_and_notify env (mkAddBody None phone) w
  = (json_message 400 "Dados do pedido não fornecidos", w, []).
Proof. reflexivity. Qed.

Lemma update_status_rejected env b w :
  truthy (st_orderId b) = false ∨ truthy (st_status b) = false →
  update_status env b w
  = (json_message 400 "ID do pedido e status são obrigatórios", w, []).
Proof.
  intros H. unfold update_status, try_catch, update_status_try.
  assert (negb (truthy (st_orderId b)) || negb (truthy (st_status b)) = true)
    as -> by (destruct H as [-> | ->]; [done | apply orb_true_r]).
  reflexivity.
Qed.

Lemma update_status_not_found env b w :
  truthy (st_orderId b) = true → truthy (st_status b) = true →
  findIndex (st_orderId b) (orders (queue w)) = None →
  update_status env b w = (json_message 404 "Pedido não encontrado", w, []).
Proof.
  intros Hid Hst Hfind. unfold update_status, try_catch, update_status_try.
  rewrite Hid, Hst. cbn.
  unfold mbind, M_bind, loadQueueData. cbn. by rewrite Hfind.
Qed.

Lemma update_status_write_failure env b w i o :
  truthy (st_orderId b) = true → truthy (st_status b) = true →
  findIndex (st_orderId b) (orders (queue w)) = Some (i, o) →
  writable w = false →
  update_status env b w = (json_message 500 "Erro interno do servidor", w, []).
Proof.
  intros Hid Hst Hfind Hw. unfold update_status, try_catch, update_status_try.
  rewrite Hid, Hst. cbn.
  unfold mbind, M_bind, loadQueueData. cbn. rewrite Hfind.
  unfold saveQueueData. by rewrite Hw.
Qed.

(** Without a customer phone no service is called. *)
Lemma update_status_silent env b w i o :
  truthy (st_orderId b) = true → truthy (st_status b) = true →
  findIndex (st_orderId b) (orders (queue w)) = Some (i, o) →
  writable w = true →
  truthy (st_customerPhone b) = false →
  update_status env b w
  = (mkResponse 200 true "Status atualizado e cliente notificado" None,
     mkWorld (status_document (queue w) i o (st_status b)) true,
     [Saved (status_document (queue w) i o (st_status b))]).
Proof.
  intros Hid Hst Hfind Hw Hph. unfold update_status, try_catch, update_status_try.
  rewrite Hid, Hst. cbn.
  unfold mbind, M_bind, loadQueueData. cbn. rewrite Hfind.
  unfold saveQueueData. rewrite Hw, Hph. reflexivity.
Qed.

(** With a customer phone the WhatsApp service is called and awaited:
    the reply depends on how its promise settles. *)
Lemma update_status_notified env b w i o :
  truthy (st_orderId b) = true → truthy (st_status b) = true →
  findIndex (st_orderId b) (orders (queue w)) = Some (i, o) →
  writable w = true →
  truthy (st_customerPhone b) = true →
  let n := NotifyCustomerAboutStatusUpdate
             (<["status" := st_status b]> o) (st_customerPhone b) in
  update_status env b w
  = (match adapter env n with
     | Fulfilled _ =>
         mkResponse 200 true "Status atualizado e cliente notificado" None
     | Rejected => json_message 500 "Erro interno do servidor"
     end,
     mkWorld (status_document (queue w) i o (st_status b)) true,
     [Saved (status_document (queue w) i o (st_status b)); Dispatched n]).
Proof.
  intros Hid Hst Hfind Hw Hph n. unfold update_status, try_catch, update_status_try.
  rewrite Hid, Hst. cbn.
  unfold mbind, M_bind, loadQueueData. cbn. rewrite Hfind.
  unfold saveQueueData. rewrite Hw, Hph. cbn. fold n.
  by destruct (adapter env n).
Qed.

(** Whatever the request, update-status leaves either the old document
    or the old document with the status of the matched order set. *)
Lemma update_status_document env b w :
  queue (after (update_status env b) w) = queue w
  ∨ ∃ i o, findIndex (st_orderId b) (orders (queue w)) = Some (i, o)
           ∧ queue (after (update_status env b) w)
             = status_document (queue w) i o (st_status b).
Proof.
  unfold after.
  destruct (truthy (st_orderId b)) eqn:Hid.
  2:{ left. rewrite update_status_rejected; auto. }
  destruct (truthy (st_status b)) eqn:Hst.
  2:{ left. rewrite update_status_rejected; auto. }
  destruct (findIndex (st_orderId b) (orders (queue w))) as [[i o]|] eqn:Hfind.
  2:{ left. by rewrite update_status_not_found. }
  destruct (writable w) eqn:Hw.
  2:{ left. by rewrite (update_status_write_failure env b w i o). }
  right. exists i, o. split; [done|].
  destruct (truthy (st_customerPhone b)) eqn:Hph.
  - by rewrite (update_status_notified env b w i o).
  - by rewrite (update_status_silent env b w i o).
Qed.

(** ** Reconciliation: what a sync does to the orders *)

(** C1, as stated, fails: the server holds order [a], the client sends
    only the new order [b]; the sync is accepted and [a] is gone. *)
Lemma sync_drops_unsent_order :
  ¬ sync_keeps_server_orders Sample.env_ok
      (mkSyncBody (OrdersArray [Sample.order_with_id "b"]) (JStr "B") (JNum 1))
      (Sample.world_of [Sample.order_with_id "a"]).
Proof.
  intros H. specialize (H eq_refl (JStr "a")).
  vm_compute in H.
  assert (JStr "a" ∈ [JStr "b"]) as Hin by (apply H; left).
  apply list_elem_of_singleton in Hin. discriminate.
Qed.

(** C1, amended: an accepted sync replaces the server's orders by the
    client's array (each order copied with [createdAt] as a date), so an
    order the server held is still there exactly when the client sent an
    order with its id. *)
Theorem sync_replaces_orders env b w :
  code (reply (sync env b) w) = 200 →
  ∃ os, sync_orders b = OrdersArray os
        ∧ orders (queue (after (sync env b) w)) = imap (process_order env) os
        ∧ ∀ id, id ∈ order_ids (queue w) →
                (id ∈ order_ids (queue (after (sync env b) w))
                 ↔ id ∈ map (λ o : order, prop o "id") os).
Proof.
  intros H200. destruct (sync_200_inv env b w H200) as (os & Hos & Hp & Hn & Hw).
  exists os. destruct b as [bo p n]; cbn in *; subst bo.
  unfold after. rewrite sync_accepted by done. cbn.
  split; [done|]. split; [done|].
  intros id _. unfold order_ids. cbn. by rewrite imap_process_ids.
Qed.

Lemma sync_replaces_orders_witness :
  ∃ os, OrdersArray [Sample.order_with_id "b"] = OrdersArray os
        ∧ orders (queue (after
             (sync Sample.env_ok
                (mkSyncBody (OrdersArray [Sample.order_with_id "b"])
                            (JStr "B") (JNum 1)))
             (Sample.world_of [Sample.order_with_id "a"])))
          = imap (process_order Sample.env_ok) os
        ∧ ∀ id, id ∈ [JStr "a"] →
                (id ∈ order_ids (queue (after
                   (sync Sample.env_ok
                      (mkSyncBody (OrdersArray [Sample.order_with_id "b"])
                                  (JStr "B") (JNum 1)))
                   (Sample.world_of [Sample.order_with_id "a"])))
                 ↔ id ∈ map (λ o : order, prop o "id") os).
Proof.
  apply (sync_replaces_orders Sample.env_ok
           (mkSyncBody (OrdersArray [Sample.order_with_id "b"]) (JStr "B") (JNum 1))
           (Sample.world_of [Sample.order_with_id "a"])).
  reflexivity.
Defined.

(** C5: sending the same sync body twice leaves as many orders as
    sending it once. *)
Theorem sync_twice_same_count env1 env2 b w :
  length (orders (queue (after (sync env2 b) (after (sync env1 b) w))))
  = length (orders (queue (after (sync env1 b) w))).
Proof.
  destruct b as [[| |os] p n]; try reflexivity.
  unfold after.
  destruct (truthy p) eqn:Hp.
  2:{ by rewrite !sync_rejected_prefix. }
  destruct (truthy n) eqn:Hn.
  2:{ by rewrite !sync_rejected_number. }
  destruct (writable w) eqn:Hw.
  2:{ rewrite (sync_write_failure env1) by done. cbn.
      by rewrite (sync_write_failure env2). }
  rewrite (sync_accepted env1) by done. cbn.
  rewrite (sync_accepted env2) by done. cbn.
  by rewrite !length_imap.
Qed.

(** C10: the [orderCount] of a successful sync is the length of the
    array the client sent, which is also the number of orders saved. *)
Theorem sync_orderCount env b w :
  code (reply (sync env b) w) = 200 →
  ∃ os, sync_orders b = OrdersArray os
        ∧ orderCount (reply (sync env b) w) = Some (length os)
        ∧ length (orders (queue (after (sync env b) w))) = length os.
Proof.
  intros H200. destruct (sync_200_inv env b w H200) as (os & Hos & Hp & Hn & Hw).
  exists os. destruct b as [bo p n]; cbn in *; subst bo.
  unfold reply, after. rewrite sync_accepted by done. cbn.
  by rewrite length_imap.
Qed.

(** The server held two orders, the client sends one: the count
    reported is one. *)
Lemma sync_orderCount_witness :
  length (orders (queue (Sample.world_of
     [Sample.order_with_id "a"; Sample.order_with_id "c"]))) = 2
  ∧ ∃ os, OrdersArray [Sample.order_with_id "b"] = OrdersArray os
        ∧ orderCount (reply
            (sync Sample.env_ok
               (mkSyncBody (OrdersArray [Sample.order_with_id "b"])
                           (JStr "B") (JNum 1)))
            (Sample.world_of [Sample.order_with_id "a"; Sample.order_with_id "c"]))
          = Some (length os)
        ∧ length (orders (queue (after
            (sync Sample.env_ok
               (mkSyncBody (OrdersArray [Sample.order_with_id "b"])
                           (JStr "B") (JNum 1)))
            (Sample.world_of [Sample.order_with_id "a"; Sample.order_with_id "c"]))))
          = length os.
Proof.
  split; [reflexivity|].
  apply (sync_orderCount Sample.env_ok
           (mkSyncBody (OrdersArray [Sample.order_with_id "b"]) (JStr "B") (JNum 1))
           (Sample.world_of [Sample.order_with_id "a"; Sample.order_with_id "c"])).
  reflexivity.
Defined.

(** ** Status updates *)

Lemma findIndex_lookup orderId (os : list order) i o :
  findIndex orderId os = Some (i, o) → os !! i = Some o.
Proof. unfold findIndex. intros H. by apply list_find_Some in H as (? & _). Qed.

(** C9: when the order is found, update-status changes nothing but the
    [status] property of the order at the index found. *)
Theorem update_status_frame env b w i (o : order) :
  findIndex (st_orderId b) (orders (queue w)) = Some (i, o) →
  let q := queue w in
  let q' := queue (after (update_status env b) w) in
  currentPrefix q' = currentPrefix q
  ∧ currentNumber q' = currentNumber q
  ∧ length (orders q') = length (orders q)
  ∧ (∀ j, j ≠ i → orders q' !! j = orders q !! j)
  ∧ ∃ o' : order, orders q' !! i = Some o'
                  ∧ ∀ k, k ≠ "status" → o' !! k = o !! k.
Proof.
  intros Hfind q q'. pose proof (findIndex_lookup _ _ _ _ Hfind) as Hi.
  destruct (update_status_document env b w) as [Hsame | (i' & o0 & Hfind' & Hdoc)];
    subst q q'.
  - rewrite Hsame. repeat split; try done. by exists o.
  - rewrite Hfind in Hfind'. injection Hfind' as <- <-.
    rewrite Hdoc. unfold status_document. cbn.
    split; [done|]. split; [done|].
    split; [by rewrite length_insert|].
    split.
    + intros j Hj. by rewrite list_lookup_insert_ne.
    + exists (<["status" := st_status b]> o). split.
      * apply list_lookup_insert_eq. by eapply lookup_lt_Some.
      * intros k Hk. by rewrite lookup_insert_ne.
Qed.

Lemma update_status_frame_witness :
  let w := Sample.world_of
             [Sample.order_with_id "a";
              <["status" := JStr "received"]> (Sample.order_with_id "b")] in
  let b := mkStatusBody (JStr "b") (JStr "preparing") JUndefined in
  let q := queue w in
  let q' := queue (after (update_status Sample.env_ok b) w) in
  currentPrefix q' = currentPrefix q
  ∧ currentNumber q' = currentNumber q
  ∧ length (orders q') = length (orders q)
  ∧ (∀ j, j ≠ 1 → orders q' !! j = orders q !! j)
  ∧ ∃ o' : order,
      orders q' !! 1 = Some o'
      ∧ ∀ k, k ≠ "status" →
             o' !! k = (<["status" := JStr "received"]> (Sample.order_with_id "b")) !! k.
Proof.
  intros w b.
  apply (update_status_frame Sample.env_ok b w 1
           (<["status" := JStr "received"]> (Sample.order_with_id "b"))).
  vm_compute. reflexivity.
Defined.

(** ** Order of effects within a request *)

Lemma save_precedes_dispatch_nil : save_precedes_dispatch [].
Proof. intros i n H. by rewrite lookup_nil in H. Qed.

Lemma save_precedes_dispatch_saved q es : save_precedes_dispatch (Saved q :: es).
Proof.
  intros [|i] n H; [discriminate|].
  exists 0, q. split; [lia | done].
Qed.

Lemma save_precedes_dispatch_head n es : ¬ save_precedes_dispatch (Dispatched n :: es).
Proof. intros H. destruct (H 0 n eq_refl) as (j & q & Hj & _). lia. Qed.

(** add-and-notify saves before it calls any service. *)
Lemma add_and_notify_saves_first env b w :
  save_precedes_dispatch (effects (add_and_notify env b) w).
Proof.
  destruct b as [[o|] phone]; unfold effects.
  - destruct (writable w) eqn:Hw.
    + rewrite add_and_notify_accepted by done. apply save_precedes_dispatch_saved.
    + rewrite add_and_notify_write_failure by done. apply save_precedes_dispatch_nil.
  - rewrite add_and_notify_rejected. apply save_precedes_dispatch_nil.
Qed.

(** update-status saves before it calls the WhatsApp service. *)
Lemma update_status_saves_first env b w :
  save_precedes_dispatch (effects (update_status env b) w).
Proof.
  unfold effects.
  destruct (truthy (st_orderId b)) eqn:Hid.
  2:{ rewrite update_status_rejected by auto. apply save_precedes_dispatch_nil. }
  destruct (truthy (st_status b)) eqn:Hst.
  2:{ rewrite update_status_rejected by auto. apply save_precedes_dispatch_nil. }
  destruct (findIndex (st_orderId b) (orders (queue w))) as [[i o]|] eqn:Hfind.
  2:{ rewrite update_status_not_found by done. apply save_precedes_dispatch_nil. }
  destruct (writable w) eqn:Hw.
  2:{ rewrite (update_status_write_failure env b w i o) by done.
      apply save_precedes_dispatch_nil. }
  destruct (truthy (st_customerPhone b)) eqn:Hph.
  - rewrite (update_status_notified env b w i o) by done.
    apply save_precedes_dispatch_saved.
  - rewrite (update_status_silent env b w i o) by done.
    apply save_precedes_dispatch_saved.
Qed.

(** A sync that finds a new order calls the e-mail service before it
    saves. *)
Lemma sync_dispatches_first env os p n w :
  truthy p = true → truthy n = true →
  new_orders (order_ids (queue w)) os ≠ [] →
  ¬ save_precedes_dispatch (effects (sync env (mkSyncBody (OrdersArray os) p n)) w).
Proof.
  intros Hp Hn Hnew. unfold effects.
  destruct (writable w) eqn:Hw.
  - rewrite sync_accepted by done. cbn.
    destruct (new_orders (order_ids (queue w)) os) as [|o l]; [done|].
    apply save_precedes_dispatch_head.
  - rewrite sync_write_failure by done. cbn.
    destruct (new_orders (order_ids (queue w)) os) as [|o l]; [done|].
    apply save_precedes_dispatch_head.
Qed.

(** C2, on the sync route: the client sends one order the server does
    not hold; the e-mail service is called first and the document is
    saved after it. *)
Theorem sync_notifies_before_saving :
  let h := sync Sample.env_ok
             (mkSyncBody (OrdersArray [Sample.order_with_id "b"]) (JStr "B") (JNum 1)) in
  let w := Sample.world_of [Sample.order_with_id "a"] in
  effects h w
  = [ Dispatched (SendNewOrderNotification (Sample.order_with_id "b"));
      Saved (queue (after h w)) ]
  ∧ ¬ save_precedes_dispatch (effects h w).
Proof.
  split.
  - vm_compute. reflexivity.
  - apply sync_dispatches_first; [reflexivity | reflexivity | ].
    vm_compute. discriminate.
Qed.

(** ** Notification failures and the reply *)

(** add-and-notify answers 201 however the channel adapters settle. *)
Lemma add_and_notify_reply env o phone w :
  writable w = true →
  reply (add_and_notify env (mkAddBody (Some o) phone)) w
  = mkResponse 201 true "Pedido adicionado e notificações enviadas" None.
Proof. intros Hw. unfold reply. by rewrite add_and_notify_accepted. Qed.

(** C3, on the update-status route: the status is saved, the WhatsApp
    adapter rejects, and the caller gets a 500 without [success]. *)
Theorem update_status_surfaces_notification_failure :
  let h := update_status Sample.env_down
             (mkStatusBody (JStr "o1") (JStr "preparing") (JStr "+15550100")) in
  let w := Sample.world_of [Sample.order_with_id "o1"] in
  orders (queue (after h w))
  = [ <["status" := JStr "preparing"]> (Sample.order_with_id "o1") ]
  ∧ reply h w = json_message 500 "Erro interno do servidor"
  ∧ success (reply h w) = false.
Proof. vm_compute. repeat split; reflexivity. Qed.

(** ** Validation of the sequencer fields *)


(** What the handler does with [currentNumber: 0]: the test
    [!currentNumber] takes it for a missing number. *)
Example sync_number_zero :
  sync Sample.env_ok (mkSyncBody (OrdersArray []) (JStr "B") (JNum 0))
       (Sample.world_of [])
  = (json_message 400 "Dados inválidos: currentNumber não definido",
     Sample.world_of [], []).
Proof. reflexivity. Qed.



(** ** Channels of a new-order event *)

(** C6, as stated, fails on the sync route: one order newly enters the
    queue, and only the e-mail channel is called (a sync body carries
    no customer phone). *)
Lemma sync_new_order_email_only :
  let h := sync Sample.env_ok
             (mkSyncBody (OrdersArray [Sample.order_with_id "b"]) (JStr "B") (JNum 1)) in
  let w := Sample.world_of [] in
  new_orders (order_ids (queue w)) [Sample.order_with_id "b"]
  = [Sample.order_with_id "b"]
  ∧ ¬ new_order_channels_as_stated JUndefined (dispatched_channels (effects h w)).
Proof.
  split; [vm_compute; reflexivity|].
  intros (_ & Hadmin & _). vm_compute in Hadmin.
  apply list_elem_of_singleton in Hadmin. discriminate.
Qed.

Lemma dispatched_app es1 es2 : dispatched (es1 ++ es2) = dispatched es1 ++ dispatched es2.
Proof. unfold dispatched. apply omap_app. Qed.

Lemma dispatched_map_Dispatched ns : dispatched (map Dispatched ns) = ns.
Proof. induction ns as [|n ns IH]; [done|]. cbn. f_equal. exact IH. Qed.

Lemma dispatched_map_email os :
  dispatched (map dispatch_email os) = map SendNewOrderNotification os.
Proof. induction os as [|o os IH]; [done|]. cbn. f_equal. exact IH. Qed.

(** C6, amended: an order added through add-and-notify is announced on
    the e-mail and admin-WhatsApp channels, and on the customer-WhatsApp
    channel exactly when the request carried a (non-empty) customer
    phone; the new orders of an accepted sync are announced on the
    e-mail channel only, one call per new order. *)
Theorem new_order_channels env w :
  writable w = true →
  (∀ o phone,
     let cs := dispatched_channels
                 (effects (add_and_notify env (mkAddBody (Some o) phone)) w) in
     cs = Email :: WhatsAppAdmin :: (if truthy phone then [WhatsAppCustomer] else [])
     ∧ new_order_channels_as_stated phone cs)
  ∧ (∀ os p n,
       truthy p = true → truthy n = true →
       dispatched (effects (sync env (mkSyncBody (OrdersArray os) p n)) w)
       = map SendNewOrderNotification (new_orders (order_ids (queue w)) os)).
Proof.
  intros Hw. split.
  - intros o phone cs. subst cs. unfold effects, dispatched_channels.
    rewrite add_and_notify_accepted by done. cbn [snd].
    change (dispatched (Saved ?q :: ?es)) with (dispatched es).
    rewrite dispatched_map_Dispatched. unfold add_notifications.
    unfold new_order_channels_as_stated.
    destruct (truthy phone); cbn; (split; [done|]);
      (split; [left|]); (split; [right; left|]).
    + split; [done|]. intros _. right. right. left.
    + split; [|discriminate]. intros H.
      rewrite !elem_of_cons, elem_of_nil in H.
      destruct H as [H | [H | H]]; done.
  - intros os p n Hp Hn. unfold effects. rewrite sync_accepted by done. cbn [snd].
    rewrite dispatched_app, dispatched_map_email. cbn. apply app_nil_r.
Qed.

Lemma new_order_channels_witness :
  let w := Sample.world_of [] in
  let o := Sample.order_with_id "o1" in
  dispatched_channels
    (effects (add_and_notify Sample.env_ok (mkAddBody (Some o) (JStr "+15550100"))) w)
  = [Email; WhatsAppAdmin; WhatsAppCustomer]
  ∧ dispatched (effects (sync Sample.env_ok
                           (mkSyncBody (OrdersArray [o]) (JStr "B") (JNum 1))) w)
    = [SendNewOrderNotification o].
Proof.
  intros w o.
  destruct (new_order_channels Sample.env_ok w eq_refl) as [Hadd Hsync].
  split.
  - exact (proj1 (Hadd o (JStr "+15550100"))).
  - exact (Hsync [o] (JStr "B") (JNum 1) eq_refl eq_refl).
Defined.

(** ** Uniqueness of order ids *)

(** C7, as stated, fails: the queue holds order [o1] and add-and-notify
    is called with another order whose id is [o1]. *)
Lemma add_and_notify_duplicates_id :
  let w := Sample.world_of [Sample.order_with_id "o1"] in
  let h := add_and_notify Sample.env_ok
             (mkAddBody (Some (Sample.order_with_id "o1")) JUndefined) in
  unique_ids (queue w) ∧ ¬ unique_ids (queue (after h w)).
Proof.
  split.
  - vm_compute. apply NoDup_singleton.
  - vm_compute. intros H. apply NoDup_cons in H as [Hnin _].
    apply Hnin. left.
Qed.

Lemma order_ids_status_document q i (o : order) st :
  orders q !! i = Some o →
  order_ids (status_document q i o st) = order_ids q.
Proof.
  intros Hi. unfold order_ids, status_document. cbn.
  rewrite list_fmap_insert. rewrite prop_insert_ne by done.
  apply list_insert_id. by rewrite list_lookup_fmap, Hi.
Qed.

(** C7, amended: update-status keeps the ids unique; add-and-notify
    keeps them unique when the id of the order added is not yet in the
    queue; a sync leaves unique ids when the ids of the array sent are
    unique.  None of the three checks it. *)
Theorem unique_ids_preserved env w :
  unique_ids (queue w) →
  (∀ b, unique_ids (queue (after (update_status env b) w)))
  ∧ (∀ (o : order) phone,
       prop o "id" ∉ order_ids (queue w) →
       unique_ids (queue (after (add_and_notify env (mkAddBody (Some o) phone)) w)))
  ∧ (∀ os p n,
       NoDup (map (λ o : order, prop o "id") os) →
       unique_ids (queue (after (sync env (mkSyncBody (OrdersArray os) p n)) w))).
Proof.
  intros Hu. split; [|split].
  - intros b.
    destruct (update_status_document env b w) as [-> | (i & o & Hfind & ->)];
      [done|].
    unfold unique_ids. rewrite order_ids_status_document; [done|].
    by eapply findIndex_lookup.
  - intros o phone Hfresh. unfold after.
    destruct (writable w) eqn:Hw.
    + rewrite add_and_notify_accepted by done. cbn.
      unfold unique_ids, order_ids, add_document. cbn.
      rewrite map_app. cbn. apply NoDup_app. split; [exact Hu|]. split.
      * intros x Hx Hx'. apply list_elem_of_singleton in Hx'. by subst x.
      * apply NoDup_singleton.
    + by rewrite add_and_notify_write_failure.
  - intros os p n Hos. unfold after.
    destruct (truthy p) eqn:Hp; [|by rewrite sync_rejected_prefix].
    destruct (truthy n) eqn:Hn; [|by rewrite sync_rejected_number].
    destruct (writable w) eqn:Hw; [|by rewrite sync_write_failure].
    rewrite sync_accepted by done. cbn.
    unfold unique_ids, order_ids, sync_document. cbn.
    by rewrite imap_process_ids.
Qed.

Lemma unique_ids_preserved_witness :
  let w := Sample.world_of [Sample.order_with_id "o1"] in
  unique_ids (queue (after (update_status Sample.env_ok
                              (mkStatusBody (JStr "o1") (JStr "preparing") JUndefined)) w))
  ∧ unique_ids (queue (after (add_and_notify Sample.env_ok
                                (mkAddBody (Some (Sample.order_with_id "o2")) JUndefined)) w))
  ∧ unique_ids (queue (after (sync Sample.env_ok
                                (mkSyncBody (OrdersArray [Sample.order_with_id "o3"])
                                            (JStr "B") (JNum 1))) w)).
Proof.
  intros w.
  assert (unique_ids (queue w)) as Hu by (vm_compute; apply NoDup_singleton).
  destruct (unique_ids_preserved Sample.env_ok w Hu) as (Hst & Hadd & Hsync).
  split; [apply Hst|]. split.
  - apply Hadd. vm_compute. intros H.
    apply list_elem_of_singleton in H. discriminate.
  - apply Hsync. vm_compute. apply NoDup_singleton.
Defined.

(** ** Validation of the status value *)

(** C8, as stated, fails: a status that is none of the six is accepted
    and written to the order. *)
Lemma update_status_accepts_any_status :
  ¬ status_validation_as_stated Sample.env_ok
      (mkStatusBody (JStr "o1") (JStr "banana") JUndefined)
      (Sample.world_of [Sample.order_with_id "o1"]).
Proof.
  intros H. destruct H as [Hs _].
  - cbn. intros Hin.
    repeat (apply elem_of_cons in Hin as [Heq | Hin]; [discriminate|]).
    by apply elem_of_nil in Hin.
  - vm_compute in Hs. discriminate.
Qed.

(** C8, amended: a status-update request whose status is missing or
    falsy is answered 400 with a message before anything is written or
    sent; any other status value, one of the six or not, is accepted and
    written to the matched order as it is. *)
Theorem update_status_validation env b w :
  let h := update_status env b in
  (truthy (st_status b) = false →
     code (reply h w) = 400 ∧ after h w = w ∧ effects h w = [])
  ∧ (∀ i (o : order),
       truthy (st_orderId b) = true → truthy (st_status b) = true →
       findIndex (st_orderId b) (orders (queue w)) = Some (i, o) →
       writable w = true →
       orders (queue (after h w)) !! i = Some (<["status" := st_status b]> o)).
Proof.
  intros h. subst h. split.
  - intros Hst. unfold reply, after, effects.
    by rewrite update_status_rejected by auto.
  - intros i o Hid Hst Hfind Hw.
    assert (queue (after (update_status env b) w)
            = status_document (queue w) i o (st_status b)) as ->.
    { unfold after. destruct (truthy (st_customerPhone b)) eqn:Hph.
      - by rewrite (update_status_notified env b w i o).
      - by rewrite (update_status_silent env b w i o). }
    cbn. apply list_lookup_insert_eq.
    eapply lookup_lt_Some, findIndex_lookup, Hfind.
Qed.

Lemma update_status_validation_witness :
  let w := Sample.world_of [Sample.order_with_id "o1"] in
  (let h := update_status Sample.env_ok
              (mkStatusBody (JStr "o1") (JStr "") JUndefined) in
   code (reply h w) = 400 ∧ after h w = w ∧ effects h w = [])
  ∧ (let h := update_status Sample.env_ok
                (mkStatusBody (JStr "o1") (JStr "banana") JUndefined) in
     orders (queue (after h w)) !! 0
     = Some (<["status" := JStr "banana"]> (Sample.order_with_id "o1"))).
Proof.
  intros w. split.
  - apply (update_status_validation Sample.env_ok
             (mkStatusBody (JStr "o1") (JStr "") JUndefined) w).
    reflexivity.
  - apply (proj2 (update_status_validation Sample.env_ok
                    (mkStatusBody (JStr "o1") (JStr "banana") JUndefined) w)
             0 (Sample.order_with_id "o1"));
      [reflexivity | reflexivity | vm_compute; reflexivity | reflexivity].
Defined.

(** ** More on the queue routes *)

(** Every property of a synced order other than [createdAt] is saved
    as the client sent it, at the position the client sent it, and
    [createdAt] is saved as a date: the one sent, or the current
    instant when none was sent. *)
Theorem sync_keeps_payload env b w os i (o : order) :
  code (reply (sync env b) w) = 200 →
  sync_orders b = OrdersArray os →
  os !! i = Some o →
  ∃ o' : order,
    orders (queue (after (sync env b) w)) !! i = Some o'
    ∧ (∀ k, k ≠ "createdAt" → o' !! k = o !! k)
    ∧ o' !! "createdAt"
      = Some (JDate (date_value env (createdAt_source env i o))).
Proof.
  intros H200 Hos Hi.
  destruct (sync_200_inv env b w H200) as (os' & Hos' & Hp & Hn & Hw).
  rewrite Hos in Hos'. injection Hos' as <-.
  destruct b as [bo p n]; cbn in *; subst bo.
  unfold after. rewrite sync_accepted by done. cbn.
  exists (process_order env i o). split.
  - by rewrite list_lookup_imap, Hi.
  - split; [intros k Hk; by apply process_order_other|].
    unfold process_order, createdAt_source.
    destruct (truthy (prop o "createdAt")) eqn:Hc; cbn.
    + by rewrite lookup_insert_eq.
    + rewrite lookup_insert_eq. unfold prop at 1. by rewrite lookup_insert_eq.
Qed.

Lemma sync_keeps_payload_witness :
  let o : order := {[ "id" := JStr "b"; "total" := JNum 36 ]} in
  let b := mkSyncBody (OrdersArray [o]) (JStr "B") (JNum 1) in
  ∃ o' : order,
    orders (queue (after (sync Sample.env_ok b) (Sample.world_of []))) !! 0 = Some o'
    ∧ (∀ k, k ≠ "createdAt" → o' !! k = o !! k)
    ∧ o' !! "createdAt" = Some (JDate 1000).
Proof.
  intros o b.
  apply (sync_keeps_payload Sample.env_ok b (Sample.world_of []) [o] 0 o);
    reflexivity.
Defined.

Lemma includes_elem_of (ids : list jsval) (x : jsval) :
  is_primitive x = true → x ∈ ids → includes ids x = true.
Proof.
  intros Hx Hin. unfold includes. apply existsb_exists.
  exists x. split; [by apply list_elem_of_In|].
  destruct x; try discriminate; cbn.
  - done.
  - done.
  - by destruct b.
  - apply Z.eqb_refl.
  - apply String.eqb_refl.
Qed.

Lemma new_orders_known (ids : list jsval) (os : list order) :
  (∀ o : order, o ∈ os → is_primitive (prop o "id") = true ∧ prop o "id" ∈ ids) →
  new_orders ids os = [].
Proof.
  induction os as [|o os IH]; intros H; [done|].
  unfold new_orders in *. cbn.
  destruct (H o) as [Hprim Hin]; [left|].
  rewrite includes_elem_of by done. cbn.
  apply IH. intros o' Ho'. apply H. by right.
Qed.

(** Sending an accepted sync body again calls no service: every order
    of the body is now known to the server, provided its id is a
    primitive value (a string, a number, or no id at all). *)
Theorem sync_retry_is_silent env1 env2 b w os :
  code (reply (sync env1 b) w) = 200 →
  sync_orders b = OrdersArray os →
  (∀ o : order, o ∈ os → is_primitive (prop o "id") = true) →
  dispatched (effects (sync env2 b) (after (sync env1 b) w)) = [].
Proof.
  intros H200 Hos Hprim.
  destruct (sync_200_inv env1 b w H200) as (os' & Hos' & Hp & Hn & Hw).
  rewrite Hos in Hos'. injection Hos' as <-.
  destruct b as [bo p n]; cbn in *; subst bo.
  unfold after, effects. rewrite (sync_accepted env1) by done. cbn [fst snd].
  rewrite (sync_accepted env2) by done. cbn [fst snd].
  rewrite dispatched_app, dispatched_map_email. cbn.
  rewrite new_orders_known; [done|].
  intros o Ho. split; [by apply Hprim|].
  unfold order_ids, sync_document. cbn. rewrite imap_process_ids.
  apply list_elem_of_fmap. by exists o.
Qed.

Lemma sync_retry_is_silent_witness :
  let b := mkSyncBody (OrdersArray [Sample.order_with_id "b"]) (JStr "B") (JNum 1) in
  let w := Sample.world_of [Sample.order_with_id "a"] in
  dispatched (effects (sync Sample.env_ok b) w)
  = [SendNewOrderNotification (Sample.order_with_id "b")]
  ∧ dispatched (effects (sync Sample.env_down b) (after (sync Sample.env_ok b) w)) = [].
Proof.
  intros b w. split; [vm_compute; reflexivity|].
  apply (sync_retry_is_silent Sample.env_ok Sample.env_down b w
           [Sample.order_with_id "b"]); [reflexivity | reflexivity |].
  intros o Ho. apply list_elem_of_singleton in Ho. subst o. reflexivity.
Defined.

(** When the save of a sync fails the caller gets a 500 and the queue
    document is as before, but the e-mail service has already been
    called for every new order. *)
Theorem sync_failed_save_has_notified env os p n w :
  truthy p = true → truthy n = true → writable w = false →
  let h := sync env (mkSyncBody (OrdersArray os) p n) in
  code (reply h w) = 500
  ∧ after h w = w
  ∧ dispatched (effects h w)
    = map SendNewOrderNotification (new_orders (order_ids (queue w)) os).
Proof.
  intros Hp Hn Hw h. subst h. unfold reply, after, effects.
  rewrite sync_write_failure by done. cbn.
  by rewrite dispatched_map_email.
Qed.

Lemma sync_failed_save_has_notified_witness :
  let w := mkWorld (mkQueue [] (JStr "A") (JNum 7)) false in
  let h := sync Sample.env_ok
             (mkSyncBody (OrdersArray [Sample.order_with_id "b"]) (JStr "B") (JNum 1)) in
  code (reply h w) = 500
  ∧ after h w = w
  ∧ dispatched (effects h w) = [SendNewOrderNotification (Sample.order_with_id "b")].
Proof.
  intros w h.
  apply (sync_failed_save_has_notified Sample.env_ok [Sample.order_with_id "b"]
           (JStr "B") (JNum 1) w); reflexivity.
Defined.

(** A sync answered 400 has touched nothing: the document is as before
    and no service was called. *)
Theorem sync_bad_request_is_pure env b w :
  code (reply (sync env b) w) = 400 →
  after (sync env b) w = w ∧ effects (sync env b) w = [].
Proof.
  destruct b as [[| |os] p n]; unfold reply, after, effects; try done.
  destruct (truthy p) eqn:Hp; [|by rewrite sync_rejected_prefix].
  destruct (truthy n) eqn:Hn; [|by rewrite sync_rejected_number].
  destruct (writable w) eqn:Hw.
  - rewrite sync_accepted by done. discriminate.
  - rewrite sync_write_failure by done. discriminate.
Qed.

Lemma sync_bad_request_is_pure_witness :
  let h := sync Sample.env_ok (mkSyncBody OrdersNotArray (JStr "B") (JNum 1)) in
  let w := Sample.world_of [Sample.order_with_id "a"] in
  after h w = w ∧ effects h w = [].
Proof.
  intros h w.
  apply (sync_bad_request_is_pure Sample.env_ok
           (mkSyncBody OrdersNotArray (JStr "B") (JNum 1)) w).
  reflexivity.
Defined.

(** How the channel adapters settle has no bearing on add-and-notify:
    the reply, the document saved and the services called are the same
    under any two sets of adapters. *)
Theorem add_and_notify_ignores_adapters env1 env2 b w :
  add_and_notify env1 b w = add_and_notify env2 b w.
Proof.
  destruct b as [[o|] phone]; [|reflexivity].
  destruct (writable w) eqn:Hw.
  - by rewrite !add_and_notify_accepted.
  - by rewrite !add_and_notify_write_failure.
Qed.

(** add-and-notify stores the order exactly as it was sent, after the
    orders already queued, and leaves those and the sequencer fields as
    they were. *)
Theorem add_and_notify_appends env (o : order) phone w :
  writable w = true →
  let h := add_and_notify env (mkAddBody (Some o) phone) in
  code (reply h w) = 201
  ∧ orders (queue (after h w)) = orders (queue w) ++ [o]
  ∧ currentPrefix (queue (after h w)) = currentPrefix (queue w)
  ∧ currentNumber (queue (after h w)) = currentNumber (queue w).
Proof.
  intros Hw h. subst h. unfold reply, after.
  by rewrite add_and_notify_accepted.
Qed.

Lemma add_and_notify_appends_witness :
  let o : order := {[ "id" := JStr "o1"; "total" := JNum 36 ]} in
  let w := Sample.world_of [Sample.order_with_id "a"] in
  let h := add_and_notify Sample.env_down (mkAddBody (Some o) (JStr "+15550100")) in
  code (reply h w) = 201
  ∧ orders (queue (after h w)) = [Sample.order_with_id "a"; o]
  ∧ currentPrefix (queue (after h w)) = JStr "A"
  ∧ currentNumber (queue (after h w)) = JNum 7.
Proof.
  intros o w h.
  apply (add_and_notify_appends Sample.env_down o (JStr "+15550100") w).
  reflexivity.
Defined.

(** Unless add-and-notify answers 201 it has written nothing and called
    no service: a failed save stops the request before any notification. *)
Theorem add_and_notify_failure_is_pure env b w :
  code (reply (add_and_notify env b) w) ≠ 201 →
  after (add_and_notify env b) w = w ∧ effects (add_and_notify env b) w = [].
Proof.
  destruct b as [[o|] phone]; unfold reply, after, effects; [|done].
  destruct (writable w) eqn:Hw.
  - rewrite add_and_notify_accepted by done. cbn. done.
  - by rewrite add_and_notify_write_failure.
Qed.

Lemma add_and_notify_failure_is_pure_witness :
  let w := mkWorld (mkQueue [] (JStr "A") (JNum 7)) false in
  let h := add_and_notify Sample.env_ok
             (mkAddBody (Some (Sample.order_with_id "o1")) (JStr "+15550100")) in
  after h w = w ∧ effects h w = [].
Proof.
  intros w h.
  apply (add_and_notify_failure_is_pure Sample.env_ok
           (mkAddBody (Some (Sample.order_with_id "o1")) (JStr "+15550100")) w).
  vm_compute. discriminate.
Defined.

Lemma update_status_after env b w :
  after (update_status env b) w = status_world b w.
Proof.
  unfold after, status_world.
  destruct (truthy (st_orderId b)) eqn:Hid.
  2:{ rewrite update_status_rejected; auto. }
  destruct (truthy (st_status b)) eqn:Hst.
  2:{ rewrite update_status_rejected; auto. }
  cbn.
  destruct (findIndex (st_orderId b) (orders (queue w))) as [[i o]|] eqn:Hfind.
  2:{ rewrite update_status_not_found by done. cbn. by destruct (writable w). }
  destruct (writable w) eqn:Hw.
  2:{ by rewrite (update_status_write_failure env b w i o). }
  destruct (truthy (st_customerPhone b)) eqn:Hph.
  - by rewrite (update_status_notified env b w i o).
  - by rewrite (update_status_silent env b w i o).
Qed.

Lemma strict_eq_primitive_refl (x : jsval) :
  is_primitive x = true → strict_eq x x = true.
Proof.
  destruct x; try discriminate; cbn; intros _.
  - done.
  - done.
  - by destruct b.
  - apply Z.eqb_refl.
  - apply String.eqb_refl.
Qed.

(** An order added through add-and-notify can be updated right away:
    update-status with its id (a non-empty string or a non-zero number)
    finds an order, never answers 404, and sets the status. *)
Theorem add_then_update_status env1 env2 (o : order) phone st w :
  writable w = true →
  is_primitive (prop o "id") = true →
  truthy (prop o "id") = true →
  truthy st = true →
  let w1 := after (add_and_notify env1 (mkAddBody (Some o) phone)) w in
  let h := update_status env2 (mkStatusBody (prop o "id") st JUndefined) in
  code (reply h w1) = 200
  ∧ ∃ i (o' : order),
      findIndex (prop o "id") (orders (queue w1)) = Some (i, o')
      ∧ orders (queue (after h w1)) !! i = Some (<["status" := st]> o').
Proof.
  intros Hw Hprim Hid Hst w1 h. subst w1 h.
  unfold after, reply. rewrite add_and_notify_accepted by done. cbn [fst snd].
  set (w1 := mkWorld (add_document (queue w) o) true).
  destruct (findIndex (prop o "id") (orders (queue w1))) as [[i o']|] eqn:Hfind.
  2:{ exfalso. unfold findIndex in Hfind.
      apply list_find_None in Hfind.
      assert (o ∈ orders (queue w1)) as Hin.
      { cbn. apply elem_of_app. right. left. }
      apply (proj1 (Forall_forall _ _) Hfind o Hin). cbn.
      by apply strict_eq_primitive_refl. }
  pose proof (update_status_silent env2
                (mkStatusBody (prop o "id") st JUndefined) w1 i o'
                Hid Hst Hfind eq_refl eq_refl) as Hrun.
  rewrite Hrun. split; [done|].
  exists i, o'. split; [done|]. cbn.
    apply list_lookup_insert_eq.
    eapply lookup_lt_Some, findIndex_lookup, Hfind.
Qed.

Lemma add_then_update_status_witness :
  let o := Sample.order_with_id "o1" in
  let w := Sample.world_of [Sample.order_with_id "a"] in
  let w1 := after (add_and_notify Sample.env_down (mkAddBody (Some o) JUndefined)) w in
  let h := update_status Sample.env_ok
             (mkStatusBody (JStr "o1") (JStr "preparo") JUndefined) in
  code (reply h w1) = 200
  ∧ ∃ i (o' : order),
      findIndex (JStr "o1") (orders (queue w1)) = Some (i, o')
      ∧ orders (queue (after h w1)) !! i = Some (<["status" := JStr "preparo"]> o').
Proof.
  intros o w w1 h.
  apply (add_then_update_status Sample.env_down Sample.env_ok o JUndefined
           (JStr "preparo") w); reflexivity.
Defined.

Lemma findIndex_after_update orderId (os : list order) i (o o1 : order) :
  findIndex orderId os = Some (i, o) →
  prop o1 "id" = prop o "id" →
  findIndex orderId (<[i := o1]> os) = Some (i, o1).
Proof.
  unfold findIndex. intros Hfind Hid.
  apply list_find_Some in Hfind as (Hi & Hmatch & Hbefore).
  apply list_find_Some. split; [|split].
  - apply list_lookup_insert_eq. by eapply lookup_lt_Some.
  - cbn. by rewrite Hid.
  - intros j y Hj Hlt. rewrite list_lookup_insert_ne in Hj by lia.
    by eapply Hbefore.
Qed.

(** Sending the same status update twice leaves the queue document the
    first one left, whatever the adapters do. *)
Theorem update_status_twice env1 env2 b w :
  after (update_status env2 b) (after (update_status env1 b) w)
  = after (update_status env1 b) w.
Proof.
  rewrite !update_status_after. unfold status_world at 2.
  destruct (truthy (st_orderId b) && truthy (st_status b) && writable w) eqn:Hc.
  2:{ unfold status_world. by rewrite Hc. }
  destruct (findIndex (st_orderId b) (orders (queue w))) as [[i o]|] eqn:Hfind.
  2:{ unfold status_world. by rewrite Hc, Hfind. }
  apply andb_prop in Hc as [Hc Hw]. 
  unfold status_world. cbn [queue writable]. rewrite Hc. cbn [andb].
  unfold status_document at 1. cbn [orders].
  rewrite (findIndex_after_update _ _ i o (<["status" := st_status b]> o) Hfind)
    by (by rewrite prop_insert_ne).
  unfold status_document. cbn [orders currentPrefix currentNumber].
  rewrite Hw, Hfind.
  by rewrite insert_insert_eq, list_insert_insert_eq.
Qed.

(** update-status answers 404 exactly when no queued order has the id
    asked for, and then nothing is written and no service is called. *)
Theorem update_status_not_found_iff env b w :
  truthy (st_orderId b) = true → truthy (st_status b) = true →
  let h := update_status env b in
  (code (reply h w) = 404
   ↔ ∀ o : order, o ∈ orders (queue w) →
                  strict_eq (prop o "id") (st_orderId b) = false)
  ∧ (code (reply h w) = 404 → after h w = w ∧ effects h w = []).
Proof.
  intros Hid Hst h. subst h. unfold reply, after, effects.
  destruct (findIndex (st_orderId b) (orders (queue w))) as [[i o]|] eqn:Hfind.
  - assert (code (update_status env b w).1.1 ≠ 404) as Hne.
    { destruct (writable w) eqn:Hw.
      - destruct (truthy (st_customerPhone b)) eqn:Hph.
        + rewrite (update_status_notified env b w i o) by done. cbn.
          by destruct (adapter env _).
        + by rewrite (update_status_silent env b w i o).
      - by rewrite (update_status_write_failure env b w i o). }
    split; [|done]. split; [done|]. intros Hall. exfalso.
    unfold findIndex in Hfind. apply list_find_Some in Hfind as (Hi & Hmatch & _).
    cbn in Hmatch. rewrite Hall in Hmatch; [done|].
    by eapply list_elem_of_lookup_2.
  - rewrite update_status_not_found by done. cbn. split; [|done].
    split; [|done]. intros _ o Ho.
    unfold findIndex in Hfind. apply list_find_None in Hfind.
    pose proof (proj1 (Forall_forall _ _) Hfind o Ho) as Hno. cbn in Hno.
    by destruct (strict_eq (prop o "id") (st_orderId b)).
Qed.

Lemma update_status_not_found_iff_witness :
  let w := Sample.world_of [Sample.order_with_id "a"] in
  let h := update_status Sample.env_ok
             (mkStatusBody (JStr "zz") (JStr "preparo") (JStr "+15550100")) in
  code (reply h w) = 404 ∧ after h w = w ∧ effects h w = [].
Proof.
  intros w h.
  destruct (update_status_not_found_iff Sample.env_ok
              (mkStatusBody (JStr "zz") (JStr "preparo") (JStr "+15550100")) w
              eq_refl eq_refl) as [_ Hpure].
  split; [reflexivity|]. apply Hpure. reflexivity.
Defined.

(** A status update that is found and saved calls one service at most:
    the customer-WhatsApp notification, carrying the order with its new
    status, and only when the request has a customer phone.  The e-mail
    and admin-WhatsApp channels are never used. *)
Theorem update_status_calls env b w i (o : order) :
  truthy (st_orderId b) = true → truthy (st_status b) = true →
  findIndex (st_orderId b) (orders (queue w)) = Some (i, o) →
  writable w = true →
  dispatched (effects (update_status env b) w)
  = if truthy (st_customerPhone b)
    then [NotifyCustomerAboutStatusUpdate
            (<["status" := st_status b]> o) (st_customerPhone b)]
    else [].
Proof.
  intros Hid Hst Hfind Hw. unfold effects.
  destruct (truthy (st_customerPhone b)) eqn:Hph.
  - by rewrite (update_status_notified env b w i o).
  - by rewrite (update_status_silent env b w i o).
Qed.

Lemma update_status_calls_witness :
  let w := Sample.world_of [Sample.order_with_id "o1"] in
  dispatched (effects (update_status Sample.env_ok
     (mkStatusBody (JStr "o1") (JStr "preparo") (JStr "+15550100"))) w)
  = [NotifyCustomerAboutStatusUpdate
       (<["status" := JStr "preparo"]> (Sample.order_with_id "o1"))
       (JStr "+15550100")].
Proof.
  intros w.
  apply (update_status_calls Sample.env_ok
           (mkStatusBody (JStr "o1") (JStr "preparo") (JStr "+15550100")) w 0
           (Sample.order_with_id "o1"));
    [reflexivity | reflexivity | vm_compute; reflexivity | reflexivity].
Defined.

(** ** The WhatsApp webhook *)

Lemma strict_eq_JStr (v : jsval) (s : string) :
  strict_eq v (JStr s) = true ↔ v = JStr s.
Proof.
  destruct v; cbn; try (split; [discriminate | intros H; discriminate H]).
  rewrite String.eqb_eq. split; [by intros -> | by intros [= ->]].
Qed.

Lemma verifyToken_nonempty e : verifyToken e ≠ "".
Proof.
  destruct e as [s|]; cbn; [|done].
  destruct (String.eqb s "") eqn:Hs; [done|].
  by apply String.eqb_neq in Hs.
Qed.

(** The webhook verification echoes the challenge exactly when the mode
    is the string [subscribe] and the token is the configured one, and
    answers 403 otherwise.  The token expected is never empty: with the
    variable unset or empty the built-in token is the one accepted, so a
    request with no token or an empty token is always refused. *)
Theorem webhook_verify_accepts e mode token challenge :
  (webhook_verify e mode token challenge = SendChallenge challenge
   ↔ mode = JStr "subscribe" ∧ token = JStr (verifyToken e))
  ∧ (webhook_verify e mode token challenge = SendChallenge challenge
     ∨ webhook_verify e mode token challenge = SendStatus 403)
  ∧ (truthy token = false →
     webhook_verify e mode token challenge = SendStatus 403)
  ∧ (e = None ∨ e = Some "" → verifyToken e = "falecomigo_whatsapp_token").
Proof.
  unfold webhook_verify.
  destruct (strict_eq mode (JStr "subscribe")) eqn:Hm;
    destruct (strict_eq token (JStr (verifyToken e))) eqn:Ht; cbn.
  - apply strict_eq_JStr in Hm, Ht. subst. repeat split; auto.
    + intros Hf. cbn in Hf. apply negb_false_iff, String.eqb_eq in Hf.
      by destruct (verifyToken_nonempty e).
    + by intros [-> | ->].
  - repeat split; auto; try discriminate.
    + intros [_ ->]. by rewrite (proj2 (strict_eq_JStr _ _)) in Ht.
    + by intros [-> | ->].
  - repeat split; auto; try discriminate.
    + intros [-> _]. discriminate.
    + by intros [-> | ->].
  - repeat split; auto; try discriminate.
    + intros [-> _]. discriminate.
    + by intros [-> | ->].
Qed.

Lemma webhook_verify_accepts_witness :
  webhook_verify (Some "") (JStr "subscribe") JUndefined (JStr "42") = SendStatus 403
  ∧ verifyToken (Some "") = "falecomigo_whatsapp_token".
Proof.
  destruct (webhook_verify_accepts (Some "") (JStr "subscribe") JUndefined (JStr "42"))
    as (_ & _ & Hno & Hdef).
  split; [apply Hno; reflexivity | apply Hdef; by right].
Defined.

(** The webhook receiver answers 200 whatever happens; its [success]
    flag is [false] exactly when something threw: the body was
    undefined (the service is then not called), the service rejected,
    or it resolved with nothing.  What the service reports in
    [result.success] does not reach the reply. *)
Theorem webhook_receive_always_200 process body :
  let r := (webhook_receive process body).1 in
  let called := (webhook_receive process body).2 in
  api_code r = 200
  ∧ (called = false ↔ body = JUndefined)
  ∧ (api_body r = JObj {[ "success" := JBool true ]}
     ∨ api_body r = JObj {[ "success" := JBool false ]})
  ∧ (api_body r = JObj {[ "success" := JBool true ]}
     ↔ body ≠ JUndefined
       ∧ ∃ result, process body = Resolves result
                   ∧ result ≠ JUndefined ∧ result ≠ JNull).
Proof.
  assert (JObj {[ "success" := JBool false ]} ≠ JObj {[ "success" := JBool true ]})
    as Hne.
  { intros H.
    apply (f_equal (λ v, match v with JObj m => m !! "success" | _ => None end)) in H.
    rewrite !lookup_singleton_eq in H. discriminate. }
  unfold webhook_receive.
  destruct body; cbn;
    try (split; [done|]; split; [done|]; split; [by right|];
         split; [intros H; by destruct Hne | by intros [? _]]).
  all: destruct (process _) as [result|] eqn:Hp; cbn;
    [destruct result; cbn|];
    (split; [done|]); (split; [done|]);
    (split; [first [by left | by right]|]);
    (split;
      [ intros H; first [by destruct Hne | split; [done|]; eexists; repeat split; done]
      | intros (_ & result' & Hres & Hu & Hn); first [done | injection Hres as <-; done] ]).
Qed.

(** ** Product defaults *)

(** The product handed to the menu storage: its [createdAt] is the
    server's clock even when the client sent one; [available] is a
    boolean, [false] only when the client sent exactly [false];
    [isFeatured] and [isPromotion] are [false] when the client sent
    nothing or a falsy value and are otherwise the value sent, not
    coerced; every other property is the client's. *)
Theorem productData_defaults t (body : order) :
  productData t body !! "createdAt" = Some (JDate t)
  ∧ productData t body !! "available"
    = Some (JBool (negb (strict_eq (prop body "available") (JBool false))))
  ∧ (productData t body !! "available" = Some (JBool false)
     ↔ body !! "available" = Some (JBool false))
  ∧ (∀ k, k = "isFeatured" ∨ k = "isPromotion" →
       productData t body !! k
       = Some (if truthy (prop body k) then prop body k else JBool false))
  ∧ (∀ k, k ≠ "createdAt" → k ≠ "available" → k ≠ "isFeatured" →
          k ≠ "isPromotion" → productData t body !! k = body !! k).
Proof.
  unfold productData. split; [|split; [|split; [|split]]].
  - by rewrite !lookup_insert_ne, lookup_insert_eq by done.
  - by rewrite lookup_insert_eq.
  - rewrite lookup_insert_eq. unfold prop.
    destruct (body !! "available") as [v|] eqn:Hv; cbn.
    + destruct v as [| |[]| | | | |]; cbn; split; intros H; try done;
        try (injection H as H; discriminate).
    + split; intros H; [injection H as H|]; discriminate.
  - intros k [-> | ->]; unfold js_or.
    + by rewrite !lookup_insert_ne, lookup_insert_eq by done.
    + by rewrite !lookup_insert_ne, lookup_insert_eq by done.
  - intros k H1 H2 H3 H4. by rewrite !lookup_insert_ne by done.
Qed.

(** ** Routes over the database *)

Lemma strict_eq_eq (a b : jsval) : strict_eq a b = true → a = b.
Proof.
  destruct a, b; cbn; try discriminate; try done.
  - intros H. f_equal. by apply Bool.eqb_prop.
  - intros H. f_equal. by apply Z.eqb_eq.
  - intros H. f_equal. by apply String.eqb_eq.
Qed.

Lemma includes_elem (xs : list jsval) (x : jsval) :
  includes xs x = true → x ∈ xs.
Proof.
  unfold includes. intros H. apply existsb_exists in H as (y & Hy & Heq).
  apply strict_eq_eq in Heq. subst y. by apply list_elem_of_In.
Qed.

(** Case analysis on everything a route body branches on. *)
Ltac route_cases :=
  repeat (cbn in *;
          match goal with
          | |- context [match ?x with _ => _ end] => destruct x eqn:?
          | H : context [match ?x with _ => _ end] |- _ => destruct x eqn:?
          end).

Ltac run_route :=
  unfold guarded, svc_try, asked, did, evaluated,
    mbind, mret, Svc_bind, Svc_ret in *.

(** A login that succeeds answers with the stored user without its
    [password] property, every other property as stored; it succeeds
    only for a user the database returned and a password bcrypt
    accepted. *)
Theorem login_hides_password be has_session email password :
  api_code (login be has_session email password).1 = 200 →
  ∃ user u' : order,
    getUserByEmail be email = Resolves (Some user)
    ∧ bcrypt_compare be password (prop user "password") = Resolves true
    ∧ api_body (login be has_session email password).1 = JObj {[ "user" := JObj u' ]}
    ∧ u' !! "password" = None
    ∧ ∀ k, k ≠ "password" → u' !! k = user !! k.
Proof.
  unfold login. run_route.
  destruct (negb (truthy email) || negb (truthy password)); [discriminate|].
  destruct (getUserByEmail be email) as [[user|]|] eqn:Hu; cbn; try discriminate.
  destruct (bcrypt_compare be password (prop user "password")) as [[]|] eqn:Hc;
    cbn; try discriminate.
  intros _. exists user, (delete "password" user).
  split; [done|]. split; [done|].
  split; [by destruct has_session|].
  split; [apply lookup_delete_eq|].
  intros k Hk. by apply lookup_delete_ne.
Qed.

Lemma login_hides_password_witness :
  ∃ user u' : order,
    getUserByEmail sample_backend (JStr "ana@example.com") = Resolves (Some user)
    ∧ bcrypt_compare sample_backend (JStr "segredo") (prop user "password")
      = Resolves true
    ∧ api_body (login sample_backend true (JStr "ana@example.com") (JStr "segredo")).1
      = JObj {[ "user" := JObj u' ]}
    ∧ u' !! "password" = None
    ∧ ∀ k, k ≠ "password" → u' !! k = user !! k.
Proof.
  apply (login_hides_password sample_backend true
           (JStr "ana@example.com") (JStr "segredo")).
  vm_compute. reflexivity.
Defined.

(** An unknown e-mail and a wrong password get the same reply, and
    neither touches the session. *)
Theorem login_same_refusal be has_session email password :
  truthy email = true → truthy password = true →
  (getUserByEmail be email = Resolves None
   ∨ ∃ user : order,
       getUserByEmail be email = Resolves (Some user)
       ∧ bcrypt_compare be password (prop user "password") = Resolves false) →
  (login be has_session email password).1
  = mkReply 401 (message_body "Credenciais inválidas")
  ∧ ∀ su, SessionSetUser su ∉ (login be has_session email password).2.
Proof.
  intros He Hp H. unfold login. run_route. rewrite He, Hp. cbn.
  destruct H as [-> | (user & -> & Hc)]; cbn.
  - split; [done|]. intros su Hin.
    apply list_elem_of_singleton in Hin. discriminate.
  - rewrite Hc. cbn. split; [done|]. intros su Hin.
    rewrite !elem_of_cons, elem_of_nil in Hin.
    destruct Hin as [Hin | [Hin | []]]; discriminate.
Qed.

Lemma login_same_refusal_witness :
  (login sample_backend true (JStr "nobody@example.com") (JStr "segredo")).1
  = (login sample_backend true (JStr "ana@example.com") (JStr "errada")).1.
Proof.
  rewrite (proj1 (login_same_refusal sample_backend true
                    (JStr "nobody@example.com") (JStr "segredo")
                    eq_refl eq_refl (or_introl eq_refl))).
  rewrite (proj1 (login_same_refusal sample_backend true
                    (JStr "ana@example.com") (JStr "errada")
                    eq_refl eq_refl
                    (or_intror (ex_intro _ sample_user (conj eq_refl eq_refl))))).
  reflexivity.
Defined.

(** The session user is written only by a login that succeeds, and it
    holds the four properties [id], [name], [email] and [type] of the
    stored user: the password hash never enters the session. *)
Theorem login_session_user be has_session email password su :
  SessionSetUser su ∈ (login be has_session email password).2 →
  api_code (login be has_session email password).1 = 200
  ∧ has_session = true
  ∧ su !! "password" = None
  ∧ ∃ user : order,
      getUserByEmail be email = Resolves (Some user)
      ∧ su = session_user user
      ∧ dom su = {[ "id"; "name"; "email"; "type" ]}.
Proof.
  unfold login. run_route.
  destruct (negb (truthy email) || negb (truthy password)); cbn.
  { intros H. by apply elem_of_nil in H. }
  destruct (getUserByEmail be email) as [[user|]|] eqn:Hu; cbn;
    try (intros H; apply list_elem_of_singleton in H; discriminate).
  destruct (bcrypt_compare be password (prop user "password")) as [[]|] eqn:Hc;
    cbn;
    try (intros H; rewrite !elem_of_cons, elem_of_nil in H;
         destruct H as [H | [H | []]]; discriminate).
  destruct has_session; cbn; intros H; rewrite !elem_of_cons, elem_of_nil in H.
  - destruct H as [H | [H | [H | []]]]; try discriminate.
    injection H as ->.
    split; [done|]. split; [done|]. split; [done|].
    exists user. split; [done|]. split; [done|].
    unfold session_user. rewrite !dom_insert_L, dom_singleton_L.
    apply set_eq. intros x. rewrite !elem_of_union, !elem_of_singleton. tauto.
  - destruct H as [H | [H | []]]; discriminate.
Qed.

Lemma login_session_user_witness :
  api_code (login sample_backend true (JStr "ana@example.com") (JStr "segredo")).1 = 200
  ∧ true = true
  ∧ session_user sample_user !! "password" = None
  ∧ ∃ user : order,
      getUserByEmail sample_backend (JStr "ana@example.com") = Resolves (Some user)
      ∧ session_user sample_user = session_user user
      ∧ dom (session_user sample_user) = {[ "id"; "name"; "email"; "type" ]}.
Proof.
  apply (login_session_user sample_backend true
           (JStr "ana@example.com") (JStr "segredo") (session_user sample_user)).
  vm_compute. right. right. left.
Defined.

(** ** Who gets through *)

(** Whoever passes the admin middleware also passes the auth
    middleware and has the session type [admin]; a request without a
    session user is answered 401 by the auth middleware and 403, not
    401, by the admin middleware. *)
Theorem admin_gate_within_auth_gate sessionUser :
  (adminMiddleware sessionUser = None →
     authMiddleware sessionUser = None
     ∧ get_prop sessionUser "type" = Normal (JStr "admin"))
  ∧ (truthy sessionUser = false →
     (∃ r, authMiddleware sessionUser = Some r ∧ api_code r = 401)
     ∧ (∃ r, adminMiddleware sessionUser = Some r ∧ api_code r = 403)).
Proof.
  unfold adminMiddleware, authMiddleware. split.
  - destruct (truthy sessionUser); cbn; [|discriminate].
    destruct (get_prop sessionUser "type") as [t|] eqn:Ht; [|discriminate].
    destruct (strict_eq t (JStr "admin")) eqn:Heq; cbn; [|discriminate].
    intros _. split; [done|]. by apply strict_eq_JStr in Heq as ->.
  - intros ->. cbn. split; eexists; split; reflexivity.
Qed.

Lemma admin_gate_within_auth_gate_witness :
  authMiddleware (JObj {[ "id" := JNum 1; "type" := JStr "admin" ]}) = None
  ∧ (∃ r, adminMiddleware JUndefined = Some r ∧ api_code r = 403).
Proof.
  split.
  - apply (proj1 (admin_gate_within_auth_gate
                    (JObj {[ "id" := JNum 1; "type" := JStr "admin" ]}))).
    reflexivity.
  - apply (proj2 (admin_gate_within_auth_gate JUndefined)). reflexivity.
Defined.

Lemma not_authorized_false sessionUser x log :
  truthy sessionUser = true →
  not_authorized sessionUser x = (Normal false, log) →
  get_prop sessionUser "id" = Normal x
  ∨ get_prop sessionUser "type" = Normal (JStr "admin").
Proof.
  intros Hu. unfold not_authorized. run_route.
  destruct (get_prop sessionUser "id") as [sid|] eqn:Hid; cbn; [|discriminate].
  destruct (strict_eq sid x) eqn:Hx; cbn.
  - intros _. left. by apply strict_eq_eq in Hx as ->.
  - destruct (get_prop sessionUser "type") as [t|] eqn:Ht; cbn; [|discriminate].
    destruct (strict_eq t (JStr "admin")) eqn:Hadm; cbn; [|discriminate].
    intros _. right. by apply strict_eq_JStr in Hadm as ->.
Qed.

Lemma not_authorized_log sessionUser x r log :
  not_authorized sessionUser x = (r, log) → log = [].
Proof.
  unfold not_authorized. run_route.
  destruct (get_prop sessionUser "id") as [sid|]; cbn; [|by intros [= _ <-]].
  destruct (strict_eq sid x); cbn; [by intros [= _ <-]|].
  destruct (get_prop sessionUser "type") as [t|]; cbn; by intros [= _ <-].
Qed.

#[local] Arguments not_authorized : simpl never.

(** The orders of a user are fetched, and sent, only for a logged-in
    user whose session id is that very number or whose session type is
    [admin]; for anyone else the database is not even asked. *)
Theorem user_orders_authorized be sessionUser userId :
  (user_orders be sessionUser userId).2 ≠ []
  ∨ api_code (user_orders be sessionUser userId).1 = 200 →
  ∃ u, userId = Some u
       ∧ truthy sessionUser = true
       ∧ (user_orders be sessionUser userId).2 = [GetOrdersByUser (JNum u)]
       ∧ (get_prop sessionUser "id" = Normal (JNum u)
          ∨ get_prop sessionUser "type" = Normal (JStr "admin")).
Proof.
  unfold user_orders, authMiddleware.
  destruct (truthy sessionUser) eqn:Hu; cbn; [|intros [H | H]; done].
  destruct userId as [u|]; cbn; [|intros [H | H]; done].
  unfold svc_try, mbind, Svc_bind.
  destruct (not_authorized sessionUser (JNum u)) as [[[]|] log] eqn:Hna;
    pose proof (not_authorized_log _ _ _ _ Hna) as ->; cbn;
    try (intros [H | H]; done).
  intros _. exists u. split; [done|]. split; [done|].
  split.
  - unfold asked, mret, Svc_ret. by destruct (getOrdersByUser be (JNum u)).
  - by eapply not_authorized_false.
Qed.

Lemma user_orders_authorized_witness :
  ∃ u, Some 7%Z = Some u
       ∧ truthy (JObj (session_user sample_user)) = true
       ∧ (user_orders sample_backend (JObj (session_user sample_user)) (Some 7%Z)).2
         = [GetOrdersByUser (JNum u)]
       ∧ (get_prop (JObj (session_user sample_user)) "id" = Normal (JNum u)
          ∨ get_prop (JObj (session_user sample_user)) "type"
            = Normal (JStr "admin")).
Proof.
  apply (user_orders_authorized sample_backend
           (JObj (session_user sample_user)) (Some 7%Z)).
  right. vm_compute. reflexivity.
Defined.

(** The details of an order are sent only to a logged-in user whose
    session id equals the [userId] of the order or whose session type
    is [admin], and what is sent is what the database returned. *)
Theorem order_details_authorized be sessionUser id :
  api_code (order_details be sessionUser id).1 = 200 →
  ∃ i (details : order) owner,
    id = Some i
    ∧ truthy sessionUser = true
    ∧ getOrderWithItems be (JNum i) = Resolves (Some details)
    ∧ api_body (order_details be sessionUser id).1 = JObj details
    ∧ get_prop (prop details "order") "userId" = Normal owner
    ∧ (get_prop sessionUser "id" = Normal owner
       ∨ get_prop sessionUser "type" = Normal (JStr "admin")).
Proof.
  unfold order_details, authMiddleware.
  destruct (truthy sessionUser) eqn:Hu; cbn; [|discriminate].
  destruct id as [i|]; cbn; [|discriminate].
  unfold svc_try, mbind, Svc_bind, asked, evaluated.
  destruct (getOrderWithItems be (JNum i)) as [[details|]|] eqn:Hd; cbn;
    try discriminate.
  destruct (get_prop (prop details "order") "userId") as [owner|] eqn:Ho; cbn;
    [|discriminate].
  destruct (not_authorized sessionUser owner) as [[[]|] log] eqn:Hna; cbn;
    try discriminate.
  intros _. exists i, details, owner. repeat (split; [done|]).
  by eapply not_authorized_false.
Qed.

Lemma order_details_authorized_witness :
  ∃ i (details : order) owner,
    Some 11%Z = Some i
    ∧ truthy (JObj (session_user sample_user)) = true
    ∧ getOrderWithItems sample_backend (JNum i) = Resolves (Some details)
    ∧ api_body (order_details sample_backend (JObj (session_user sample_user))
                  (Some 11%Z)).1 = JObj details
    ∧ get_prop (prop details "order") "userId" = Normal owner
    ∧ (get_prop (JObj (session_user sample_user)) "id" = Normal owner
       ∨ get_prop (JObj (session_user sample_user)) "type" = Normal (JStr "admin")).
Proof.
  apply (order_details_authorized sample_backend
           (JObj (session_user sample_user)) (Some 11%Z)).
  vm_compute. reflexivity.
Defined.

(** The order is looked up before the ownership check: a logged-in
    user who is neither the owner nor an admin gets 404 for an order
    that does not exist and 403 for one that does. *)
Theorem order_details_lookup_first be sessionUser i :
  truthy sessionUser = true →
  get_prop sessionUser "type" ≠ Normal (JStr "admin") →
  (getOrderWithItems be (JNum i) = Resolves None →
     api_code (order_details be sessionUser (Some i)).1 = 404)
  ∧ (∀ (details : order) owner,
       getOrderWithItems be (JNum i) = Resolves (Some details) →
       get_prop (prop details "order") "userId" = Normal owner →
       get_prop sessionUser "id" ≠ Normal owner →
       api_code (order_details be sessionUser (Some i)).1 = 403).
Proof.
  intros Hu Hadm. unfold order_details, authMiddleware. rewrite Hu. cbn.
  unfold svc_try, mbind, Svc_bind, asked, evaluated. split.
  - by intros ->.
  - intros details owner -> Ho Hid. cbn. rewrite Ho. cbn.
    destruct (not_authorized sessionUser owner) as [[[]|] log] eqn:Hna; cbn.
    + done.
    + destruct (not_authorized_false _ _ _ Hu Hna); done.
    + exfalso. revert Hna. unfold not_authorized. run_route.
      destruct sessionUser; try discriminate; cbn -[strict_eq];
        repeat (match goal with
                | |- context [if ?c then _ else _] => destruct c
                end; cbn); discriminate.
Qed.

Lemma order_details_lookup_first_witness :
  api_code (order_details sample_backend
              (JObj {[ "id" := JNum 8; "type" := JStr "cliente" ]}) (Some 11%Z)).1
  = 403.
Proof.
  assert (get_prop (JObj {[ "id" := JNum 8; "type" := JStr "cliente" ]}) "type"
          ≠ Normal (JStr "admin")) as Hadm by (vm_compute; discriminate).
  apply (proj2 (order_details_lookup_first sample_backend
                  (JObj {[ "id" := JNum 8; "type" := JStr "cliente" ]}) 11%Z
                  eq_refl Hadm)
           {[ "order" := JObj {[ "id" := JNum 11; "userId" := JNum 7 ]} ]}
           (JNum 7));
    [reflexivity | vm_compute; reflexivity | vm_compute; discriminate].
Defined.

(** ** Status writes *)

#[local] Arguments includes : simpl never.
#[local] Arguments order_statuses : simpl never.
#[local] Arguments payment_statuses : simpl never.

Ltac no_call H :=
  rewrite ?elem_of_cons, ?elem_of_nil in H;
  repeat match type of H with
         | _ ∨ _ => destruct H as [H | H]
         end;
  try discriminate H; try contradiction.

(** The order-status route writes to the database only for an admin,
    only one of the six status strings, and exactly once; any other
    status is turned away with 400 (or 403 for a non-admin) and nothing
    is written. *)
Theorem order_status_validated be sessionUser id status :
  let r := (order_status be sessionUser id status).1 in
  let calls := (order_status be sessionUser id status).2 in
  (calls = []
   ∨ ∃ i, id = Some i
          ∧ calls = [UpdateOrderStatus (JNum i) status]
          ∧ status ∈ order_statuses
          ∧ adminMiddleware sessionUser = None)
  ∧ (status ∉ order_statuses →
     calls = [] ∧ (api_code r = 400 ∨ api_code r = 403)).
Proof.
  cbn zeta. unfold order_status.
  destruct (adminMiddleware sessionUser) as [r0|] eqn:Hadm; cbn.
  { split; [by left|]. intros _. split; [done|]. right.
    revert Hadm. unfold adminMiddleware.
    destruct (truthy sessionUser); cbn; [|by intros [= <-]].
    destruct (get_prop sessionUser "type") as [t|]; [|by intros [= <-]].
    destruct (negb (strict_eq t (JStr "admin"))); [by intros [= <-]|discriminate]. }
  destruct id as [i|]; cbn; [|split; [by left|]; intros _; split; [done|by left]].
  run_route.
  destruct (truthy status) eqn:Hst; cbn;
    [|split; [by left|]; intros _; split; [done|by left]].
  destruct (includes order_statuses status) eqn:Hin; cbn;
    [|split; [by left|]; intros _; split; [done|by left]].
  apply includes_elem in Hin.
  split; [|intros Hno; by destruct Hno].
  right. exists i. split; [done|]. split; [|done].
  by destruct (updateOrderStatus be (JNum i) status) as [[o|]|].
Qed.

Lemma order_status_validated_witness :
  (order_status sample_backend (JObj {[ "type" := JStr "admin" ]})
     (Some 11%Z) (JStr "pronto")).2 = []
  ∧ (api_code (order_status sample_backend (JObj {[ "type" := JStr "admin" ]})
                 (Some 11%Z) (JStr "pronto")).1 = 400
     ∨ api_code (order_status sample_backend (JObj {[ "type" := JStr "admin" ]})
                   (Some 11%Z) (JStr "pronto")).1 = 403).
Proof.
  apply (proj2 (order_status_validated sample_backend
                  (JObj {[ "type" := JStr "admin" ]}) (Some 11%Z) (JStr "pronto"))).
  intros H. unfold order_statuses in H. cbn in H. no_call H.
Defined.

(** The payment-status route touches the order only after the payment
    was found and updated, on the order the payment names, and only in
    two cases: [aprovado] sets the order to [preparo], [recusado] sets
    it to [cancelado].  A payment set to [pendente] leaves the order
    alone. *)
Theorem payment_status_order_effect be sessionUser id status oid s :
  UpdateOrderStatus oid s ∈ (payment_status be sessionUser id status).2 →
  ∃ i (p : order),
    id = Some i
    ∧ adminMiddleware sessionUser = None
    ∧ updatePaymentStatus be (JNum i) status = Resolves (Some p)
    ∧ oid = prop p "orderId"
    ∧ (status = JStr "aprovado" ∧ s = JStr "preparo"
       ∨ status = JStr "recusado" ∧ s = JStr "cancelado").
Proof.
  unfold payment_status.
  destruct (adminMiddleware sessionUser) as [r0|] eqn:Hadm; cbn;
    [intros H; no_call H|].
  destruct id as [i|]; cbn; [|intros H; no_call H].
  run_route.
  destruct (negb (truthy status) || negb (includes payment_statuses status)); cbn;
    [intros H; no_call H|].
  destruct (updatePaymentStatus be (JNum i) status) as [[p|]|] eqn:Hp; cbn;
    try solve [intros H; no_call H].
  destruct (updateOrderStatus be (prop p "orderId") (JStr "preparo")) as [o1|];
    destruct (updateOrderStatus be (prop p "orderId") (JStr "cancelado")) as [o2|];
    destruct (strict_eq status (JStr "aprovado")) eqn:Ha;
    destruct (strict_eq status (JStr "recusado")) eqn:Hr;
    try apply strict_eq_JStr in Ha; try apply strict_eq_JStr in Hr; subst;
    try discriminate; cbn; intros H; no_call H;
    injection H as -> ->; exists i, p; auto 10.
Qed.

Lemma payment_status_order_effect_witness :
  ∃ i (p : order),
    Some 5%Z = Some i
    ∧ adminMiddleware (JObj {[ "type" := JStr "admin" ]}) = None
    ∧ updatePaymentStatus sample_backend (JNum i) (JStr "recusado") = Resolves (Some p)
    ∧ JNum 11 = prop p "orderId"
    ∧ (JStr "recusado" = JStr "aprovado" ∧ JStr "cancelado" = JStr "preparo"
       ∨ JStr "recusado" = JStr "recusado" ∧ JStr "cancelado" = JStr "cancelado").
Proof.
  apply (payment_status_order_effect sample_backend
           (JObj {[ "type" := JStr "admin" ]}) (Some 5%Z) (JStr "recusado")
           (JNum 11) (JStr "cancelado")).
  vm_compute. right. left.
Defined.

(** The two writes of the payment-status route are not one step: when
    the order update fails after the payment update went through, the
    caller gets a 500 and the payment keeps its new status. *)
Theorem payment_status_partial_write be sessionUser i (p : order) :
  adminMiddleware sessionUser = None →
  updatePaymentStatus be (JNum i) (JStr "aprovado") = Resolves (Some p) →
  updateOrderStatus be (prop p "orderId") (JStr "preparo") = Rejects →
  payment_status be sessionUser (Some i) (JStr "aprovado")
  = (mkReply 500 (message_body "Erro ao atualizar status do pagamento"),
     [ UpdatePaymentStatus (JNum i) (JStr "aprovado");
       UpdateOrderStatus (prop p "orderId") (JStr "preparo") ]).
Proof.
  intros Hadm Hp Ho. unfold payment_status. rewrite Hadm. cbn.
  run_route. rewrite Hp. cbn. by rewrite Ho.
Qed.

Lemma payment_status_partial_write_witness :
  payment_status failing_orders_backend (JObj {[ "type" := JStr "admin" ]})
    (Some 5%Z) (JStr "aprovado")
  = (mkReply 500 (message_body "Erro ao atualizar status do pagamento"),
     [ UpdatePaymentStatus (JNum 5) (JStr "aprovado");
       UpdateOrderStatus
         (prop {[ "id" := JNum 5; "status" := JStr "aprovado"; "orderId" := JNum 11 ]}
               "orderId")
         (JStr "preparo") ]).
Proof.
  apply (payment_status_partial_write failing_orders_backend
           (JObj {[ "type" := JStr "admin" ]}) 5%Z
           {[ "id" := JNum 5; "status" := JStr "aprovado"; "orderId" := JNum 11 ]});
    reflexivity.
Defined.

(** A payment is created only for parsed data, by a logged-in user,
    for an order that exists and has no payment yet; and a request
    answered 201 made exactly four calls: the two lookups, the creation,
    and the order set to [confirmado]. *)
Theorem create_payment_guarded be sessionUser result :
  (∀ d, CreatePayment d ∈ (create_payment be sessionUser result).2 →
        result = ParseOk d
        ∧ authMiddleware sessionUser = None
        ∧ (∃ o, getOrder be (prop d "orderId") = Resolves (Some o))
        ∧ getPaymentByOrder be (prop d "orderId") = Resolves None)
  ∧ (api_code (create_payment be sessionUser result).1 = 201 →
     ∃ d, result = ParseOk d
          ∧ (create_payment be sessionUser result).2
            = [ GetOrder (prop d "orderId");
                GetPaymentByOrder (prop d "orderId");
                CreatePayment d;
                UpdateOrderStatus (prop d "orderId") (JStr "confirmado") ]).
Proof.
  unfold create_payment.
  destruct (authMiddleware sessionUser) as [r0|] eqn:Hauth; cbn.
  { split; [intros d H; no_call H|].
    revert Hauth. unfold authMiddleware.
    destruct (negb (truthy sessionUser)); [by intros [= <-]|discriminate]. }
  destruct result as [d|errs]; cbn; [|split; [intros d H; no_call H|discriminate]].
  run_route.
  destruct (getOrder be (prop d "orderId")) as [[o|]|] eqn:Ho; cbn;
    try solve [split; [intros d' H; no_call H|discriminate]].
  destruct (getPaymentByOrder be (prop d "orderId")) as [[e|]|] eqn:He; cbn;
    try solve [split; [intros d' H; no_call H|discriminate]].
  destruct (createPayment be d) as [np|] eqn:Hc; cbn.
  - destruct (updateOrderStatus be (prop d "orderId") (JStr "confirmado"))
      as [uo|] eqn:Hu; cbn.
    + split.
      * intros d' H. no_call H. injection H as <-. eauto 6.
      * intros _. by exists d.
    + split; [|discriminate].
      intros d' H. no_call H. injection H as <-. eauto 6.
  - split; [|discriminate].
    intros d' H. no_call H. injection H as <-. eauto 6.
Qed.

Lemma create_payment_guarded_witness :
  let d : order := {[ "orderId" := JNum 11; "method" := JStr "pix" ]} in
  ∃ d', ParseOk d = ParseOk d'
        ∧ (create_payment sample_backend (JObj (session_user sample_user)) (ParseOk d)).2
          = [ GetOrder (prop d' "orderId");
              GetPaymentByOrder (prop d' "orderId");
              CreatePayment d';
              UpdateOrderStatus (prop d' "orderId") (JStr "confirmado") ].
Proof.
  intros d.
  apply (proj2 (create_payment_guarded sample_backend
                  (JObj (session_user sample_user)) (ParseOk d))).
  vm_compute. reflexivity.
Defined.

(** Every order status the routes write is one of the six the
    order-status route accepts: the status an admin sets, [preparo] and
    [cancelado] from the payment-status route, [confirmado] from the
    creation of a payment. *)
Theorem written_order_statuses_are_valid be sessionUser id status result oid s :
  UpdateOrderStatus oid s ∈ (order_status be sessionUser id status).2
  ∨ UpdateOrderStatus oid s ∈ (payment_status be sessionUser id status).2
  ∨ UpdateOrderStatus oid s ∈ (create_payment be sessionUser result).2 →
  s ∈ order_statuses.
Proof.
  intros [H | [H | H]].
  - destruct (order_status_validated be sessionUser id status)
      as [[Hnil | (i & _ & Hcalls & Hin & _)] _].
    + rewrite Hnil in H. by apply elem_of_nil in H.
    + rewrite Hcalls in H. apply list_elem_of_singleton in H.
      by injection H as _ ->.
  - apply payment_status_order_effect in H
      as (i & p & _ & _ & _ & _ & [[_ ->] | [_ ->]]);
      unfold order_statuses; cbn; rewrite !elem_of_cons; auto 10.
  - revert H. unfold create_payment.
    destruct (authMiddleware sessionUser) as [r0|]; cbn; [intros H; no_call H|].
    destruct result as [d|errs]; cbn; [|intros H; no_call H].
    run_route.
    destruct (getOrder be (prop d "orderId")) as [[o|]|]; cbn;
      try solve [intros H; no_call H].
    destruct (getPaymentByOrder be (prop d "orderId")) as [[e|]|]; cbn;
      try solve [intros H; no_call H].
    destruct (createPayment be d) as [np|]; cbn; [|intros H; no_call H].
    destruct (updateOrderStatus be (prop d "orderId") (JStr "confirmado"));
      cbn; intros H; no_call H; injection H as _ ->;
      unfold order_statuses; cbn; rewrite !elem_of_cons; auto 10.
Qed.

Lemma written_order_statuses_are_valid_witness :
  JStr "confirmado" ∈ order_statuses.
Proof.
  apply (written_order_statuses_are_valid sample_backend
           (JObj (session_user sample_user)) None JUndefined
           (ParseOk {[ "orderId" := JNum 11 ]}) (JNum 11) (JStr "confirmado")).
  right. right. vm_compute. right. right. right. left.
Defined.

(** An order is created only from data the schema accepted and with
    at least one item; schema errors come first, whatever the items
    are; and the reply for missing items has the very shape of a schema
    error with the single path [items]. *)
Theorem create_order_guarded be result items :
  (∀ d l, CreateOrder d l ∈ (create_order be result items).2 →
          result = ParseOk d ∧ items = ItemsArray l ∧ l ≠ [])
  ∧ (∀ errors, result = ParseError errors →
       create_order be result items = (mkReply 400 (handleZodError errors), []))
  ∧ (∀ d, result = ParseOk d →
          items = ItemsFalsy ∨ items = ItemsNotArray ∨ items = ItemsArray [] →
          create_order be result items
          = (mkReply 400
               (handleZodError
                  [mkIssue [Key "items"] "Itens do pedido são obrigatórios"]), [])).
Proof.
  unfold create_order. split; [|split].
  - intros d l. destruct result as [d0|errs]; cbn; [|intros H; no_call H].
    destruct items as [| |l0]; cbn; try solve [intros H; no_call H].
    destruct l0 as [|x l0]; cbn; [intros H; no_call H|].
    run_route. destruct (createOrder be d0 (x :: l0)); cbn;
      intros H; no_call H; injection H as -> ->; done.
  - by intros errors ->.
  - intros d -> [-> | [-> | ->]]; reflexivity.
Qed.

Lemma create_order_guarded_witness :
  create_order sample_backend (ParseOk {[ "total" := JNum 36 ]}) (ItemsArray [])
  = (mkReply 400
       (handleZodError [mkIssue [Key "items"] "Itens do pedido são obrigatórios"]),
     []).
Proof.
  apply (proj2 (proj2 (create_order_guarded sample_backend
                         (ParseOk {[ "total" := JNum 36 ]}) (ItemsArray [])))
           {[ "total" := JNum 36 ]} eq_refl).
  right. right. reflexivity.
Defined.

(** ** The e-mail pattern *)

Lemma matches_void_inv s : matches Void s → False.
Proof. inversion 1. Qed.

Lemma matches_eps_inv s : matches Eps s → s = [].
Proof. by inversion 1. Qed.

Lemma matches_class_inv p s : matches (Class p) s → ∃ c, s = [c] ∧ p c = true.
Proof. inversion 1; subst. by eexists. Qed.

Lemma matches_cat_inv r1 r2 s :
  matches (Cat r1 r2) s → ∃ s1 s2, s = s1 ++ s2 ∧ matches r1 s1 ∧ matches r2 s2.
Proof. inversion 1; subst. by eexists _, _. Qed.

Lemma matches_alt_inv r1 r2 s : matches (Alt r1 r2) s → matches r1 s ∨ matches r2 s.
Proof. inversion 1; subst; auto. Qed.

Lemma matches_star_cons r c s :
  matches (Star r) (c :: s) →
  ∃ s1 s2, s = s1 ++ s2 ∧ matches r (c :: s1) ∧ matches (Star r) s2.
Proof.
  intros H. remember (Star r) as r' eqn:Hr. remember (c :: s) as s' eqn:Hs.
  revert c s Hs.
  induction H as [|p0 c0 Hc|r1 r2 s1 s2 H1 _ H2 _|r1 r2 s0 H0 _|r1 r2 s0 H0 _
                 |r0|r0 s1 s2 H1 _ H2 IH2];
    intros c s Hs; try discriminate.
  injection Hr as ->.
  destruct s1 as [|c1 s1]; cbn in Hs.
  - by apply IH2.
  - injection Hs as -> <-. by exists s1, s2.
Qed.

Lemma nullable_matches r : nullable r = true ↔ matches r [].
Proof.
  induction r as [| |p|r1 IH1 r2 IH2|r1 IH1 r2 IH2|r IH]; cbn.
  - split; [discriminate | intros H; by apply matches_void_inv in H].
  - split; [intros _; constructor | done].
  - split; [discriminate|]. intros H.
    apply matches_class_inv in H as (c & Hc & _). discriminate.
  - rewrite andb_true_iff, IH1, IH2. split.
    + intros [H1 H2]. by apply (matches_cat r1 r2 [] []).
    + intros H. apply matches_cat_inv in H as (s1 & s2 & Hs & H1 & H2).
      symmetry in Hs. apply app_eq_nil in Hs as [-> ->]. done.
  - rewrite orb_true_iff, IH1, IH2. split.
    + intros [H | H]; [by apply matches_alt_l | by apply matches_alt_r].
    + apply matches_alt_inv.
  - split; [intros _; constructor | done].
Qed.

Lemma deriv_matches r c s : matches (deriv c r) s ↔ matches r (c :: s).
Proof.
  revert s. induction r as [| |p|r1 IH1 r2 IH2|r1 IH1 r2 IH2|r IH]; intros s; cbn.
  - split; intros H; by apply matches_void_inv in H.
  - split; intros H; [by apply matches_void_inv in H|].
    apply matches_eps_inv in H. discriminate.
  - destruct (p c) eqn:Hp; split; intros H.
    + apply matches_eps_inv in H as ->. by constructor.
    + apply matches_class_inv in H as (c' & [= <- ->] & _). constructor.
    + by apply matches_void_inv in H.
    + apply matches_class_inv in H as (c' & [= <- ->] & Hc). congruence.
  - destruct (nullable r1) eqn:Hn.
    + split; intros H.
      * apply matches_alt_inv in H as [H | H].
        -- apply matches_cat_inv in H as (s1 & s2 & -> & H1 & H2).
           apply IH1 in H1. by apply (matches_cat r1 r2 (c :: s1) s2).
        -- apply IH2 in H. apply nullable_matches in Hn.
           by apply (matches_cat r1 r2 [] (c :: s)).
      * apply matches_cat_inv in H as (s1 & s2 & Hs & H1 & H2).
        destruct s1 as [|c1 s1]; cbn in Hs.
        -- subst s2. apply matches_alt_r. by apply IH2.
        -- injection Hs as <- ->. apply matches_alt_l.
           apply matches_cat; [by apply IH1 | done].
    + split; intros H.
      * apply matches_cat_inv in H as (s1 & s2 & -> & H1 & H2).
        apply IH1 in H1. by apply (matches_cat r1 r2 (c :: s1) s2).
      * apply matches_cat_inv in H as (s1 & s2 & Hs & H1 & H2).
        destruct s1 as [|c1 s1]; cbn in Hs.
        -- apply nullable_matches in H1. congruence.
        -- injection Hs as <- ->. apply matches_cat; [by apply IH1 | done].
  - split; intros H.
    + apply matches_alt_inv in H as [H | H];
        [apply matches_alt_l; by apply IH1 | apply matches_alt_r; by apply IH2].
    + apply matches_alt_inv in H as [H | H];
        [apply matches_alt_l; by apply IH1 | apply matches_alt_r; by apply IH2].
  - split; intros H.
    + apply matches_cat_inv in H as (s1 & s2 & -> & H1 & H2).
      apply IH in H1. by apply (matches_star_app r (c :: s1) s2).
    + apply matches_star_cons in H as (s1 & s2 & -> & H1 & H2).
      apply matches_cat; [by apply IH | done].
Qed.

(** The test decides membership in the language. *)
Lemma regex_test_matches r s : regex_test r s = true ↔ matches r s.
Proof.
  revert r. induction s as [|c s IH]; intros r; cbn.
  - apply nullable_matches.
  - rewrite IH. apply deriv_matches.
Qed.

Lemma matches_star_class p s :
  matches (Star (Class p)) s ↔ Forall (λ c, p c = true) s.
Proof.
  split.
  - induction s as [|c s IH]; intros H; [constructor|].
    apply matches_star_cons in H as (s1 & s2 & -> & H1 & H2).
    apply matches_class_inv in H1 as (c' & [= <- ->] & Hc).
    constructor; [done|]. by apply IH.
  - induction 1 as [|c s Hc _ IH]; [constructor|].
    apply (matches_star_app _ [c] s); [by constructor | done].
Qed.

Lemma matches_plus_class p s :
  matches (Plus (Class p)) s ↔ s ≠ [] ∧ Forall (λ c, p c = true) s.
Proof.
  unfold Plus. split.
  - intros H. apply matches_cat_inv in H as (s1 & s2 & -> & H1 & H2).
    apply matches_class_inv in H1 as (c & -> & Hc).
    apply matches_star_class in H2. split; [done|]. by constructor.
  - intros [Hne H]. destruct H as [|c s Hc H]; [done|].
    apply (matches_cat _ _ [c] s); [by constructor|].
    by apply matches_star_class.
Qed.

Lemma matches_lit x s : matches (lit x) s ↔ s = [x].
Proof.
  unfold lit. split.
  - intros H. apply matches_class_inv in H as (c & -> & Hc).
    by apply N.eqb_eq in Hc as ->.
  - intros ->. constructor. apply N.eqb_refl.
Qed.

(** The strings the recipients route takes for an e-mail address are
    exactly those of the form [a@b.c] where [a], [b] and [c] are not
    empty and hold neither white space nor [@] (64 is [@], 46 is the
    dot; [b] and [c] may themselves hold dots). *)
Theorem emailRegex_accepts (s : units) :
  regex_test emailRegex s = true
  ↔ ∃ a b c : units,
      s = a ++ 64%N :: b ++ 46%N :: c
      ∧ a ≠ [] ∧ b ≠ [] ∧ c ≠ []
      ∧ Forall (λ x, plain x = true) a
      ∧ Forall (λ x, plain x = true) b
      ∧ Forall (λ x, plain x = true) c.
Proof.
  rewrite regex_test_matches. unfold emailRegex. split.
  - intros H.
    apply matches_cat_inv in H as (a & s1 & -> & Ha & H).
    apply matches_cat_inv in H as (at_ & s2 & -> & Hat & H).
    apply matches_cat_inv in H as (b & s3 & -> & Hb & H).
    apply matches_cat_inv in H as (dot & c & -> & Hdot & Hc).
    apply matches_lit in Hat as ->. apply matches_lit in Hdot as ->.
    apply matches_plus_class in Ha as [? ?], Hb as [? ?], Hc as [? ?].
    by exists a, b, c.
  - intros (a & b & c & -> & Ha & Hb & Hc & Fa & Fb & Fc).
    apply matches_cat; [by apply matches_plus_class|].
    apply (matches_cat _ _ [64%N]); [by apply matches_lit|].
    apply matches_cat; [by apply matches_plus_class|].
    apply (matches_cat _ _ [46%N]); [by apply matches_lit|].
    by apply matches_plus_class.
Qed.

Lemma plain_spec x : plain x = true → is_space x = false ∧ x ≠ 64%N.
Proof.
  unfold plain. rewrite negb_true_iff, orb_false_iff, N.eqb_neq. done.
Qed.

Lemma filter_at_plain (a : units) :
  Forall (λ x, plain x = true) a → filter (λ x, x = 64%N) a = [].
Proof.
  induction 1 as [|x a Hx _ IH]; [done|].
  rewrite filter_cons. destruct (decide (x = 64%N)) as [->|]; [|done].
  by apply plain_spec in Hx as [_ ?].
Qed.

(** An address the route accepts holds exactly one [@], no white space
    at all, and at least five code units. *)
Theorem emailRegex_accepted_shape (s : units) :
  regex_test emailRegex s = true →
  length (filter (λ x, x = 64%N) s) = 1
  ∧ Forall (λ x, is_space x = false) s
  ∧ 5 ≤ length s.
Proof.
  intros H. apply emailRegex_accepts in H
    as (a & b & c & -> & Ha & Hb & Hc & Fa & Fb & Fc).
  split; [|split].
  - rewrite filter_app, filter_cons_True by done.
    rewrite filter_app, filter_cons_False by done.
    by rewrite !filter_at_plain.
  - apply Forall_app. split; [|constructor; [done|]].
    + eapply Forall_impl; [exact Fa|]. intros x Hx. by apply plain_spec in Hx as [? _].
    + apply Forall_app. split; [|constructor; [done|]].
      * eapply Forall_impl; [exact Fb|]. intros x Hx. by apply plain_spec in Hx as [? _].
      * eapply Forall_impl; [exact Fc|]. intros x Hx. by apply plain_spec in Hx as [? _].
  - destruct a, b, c; try done. rewrite length_app. cbn. rewrite length_app. cbn. lia.
Qed.

Lemma emailRegex_accepted_shape_witness :
  length (filter (λ x, x = 64%N) (ascii_units "ana@example.com")) = 1
  ∧ Forall (λ x, is_space x = false) (ascii_units "ana@example.com")
  ∧ 5 ≤ length (ascii_units "ana@example.com").
Proof.
  apply (emailRegex_accepted_shape (ascii_units "ana@example.com")).
  vm_compute. reflexivity.
Defined.

Example emailRegex_samples :
  regex_test emailRegex (ascii_units "a@b.c") = true
  ∧ regex_test emailRegex (ascii_units "a@b") = false
  ∧ regex_test emailRegex (ascii_units "a@.c") = false
  ∧ regex_test emailRegex (ascii_units "a@b.") = false
  ∧ regex_test emailRegex (ascii_units "a@b..") = true
  ∧ regex_test emailRegex (ascii_units "a b@c.d") = false
  ∧ regex_test emailRegex (ascii_units "a@b@c.d") = false.
Proof. vm_compute. repeat split; reflexivity. Qed.

(** The recipients route hands an address to the e-mail service only
    for an admin, only when the address passed the pattern, and once;
    what the service answers decides between 201 and 409. *)
Theorem add_recipient_validated add sessionUser email s :
  s ∈ (add_recipient add sessionUser email).2 →
  email = EmailString s
  ∧ adminMiddleware sessionUser = None
  ∧ regex_test emailRegex s = true
  ∧ (add_recipient add sessionUser email).2 = [s]
  ∧ (api_code (add_recipient add sessionUser email).1 = 201
     ↔ add s = Resolves true)
  ∧ (api_code (add_recipient add sessionUser email).1 = 409
     ↔ add s = Resolves false).
Proof.
  unfold add_recipient.
  destruct (adminMiddleware sessionUser) as [r0|]; cbn -[regex_test emailRegex];
    [intros H; by apply elem_of_nil in H|].
  destruct email as [|[|c0 s0]]; cbn -[regex_test emailRegex];
    try solve [intros H; by apply elem_of_nil in H].
  destruct (regex_test emailRegex (c0 :: s0)) eqn:Ht; cbn -[regex_test emailRegex];
    [|intros H; by apply elem_of_nil in H].
  destruct (add (c0 :: s0)) as [[]|] eqn:Hadd; cbn;
    intros H; apply list_elem_of_singleton in H; subst s; rewrite Hadd;
    repeat split; try done; discriminate.
Qed.

Lemma add_recipient_validated_witness :
  let s := ascii_units "ana@example.com" in
  let add : units → settled bool := λ _, Resolves true in
  EmailString s = EmailString s
  ∧ adminMiddleware (JObj {[ "type" := JStr "admin" ]}) = None
  ∧ regex_test emailRegex s = true
  ∧ (add_recipient add (JObj {[ "type" := JStr "admin" ]}) (EmailString s)).2 = [s]
  ∧ (api_code (add_recipient add (JObj {[ "type" := JStr "admin" ]})
                 (EmailString s)).1 = 201
     ↔ add s = Resolves true)
  ∧ (api_code (add_recipient add (JObj {[ "type" := JStr "admin" ]})
                 (EmailString s)).1 = 409
     ↔ add s = Resolves false).
Proof.
  intros s add.
  apply (add_recipient_validated add (JObj {[ "type" := JStr "admin" ]})
           (EmailString s) s).
  vm_compute. left.
Defined.

(** ** E-mail notifications on request *)

(** With no recipient registered neither route sends anything; the
    notify route answers 200 and the test route answers 400. *)
Theorem email_routes_without_recipients es order sessionUser testOrder :
  getEstablishmentEmails es = Resolves [] →
  (truthy order = true →
     email_notify es order
     = (mkReply 200 (message_body "Nenhum e-mail para notificar"), []))
  ∧ (adminMiddleware sessionUser = None →
     email_test es sessionUser testOrder
     = (mkReply 400
          (message_body "Nenhum e-mail cadastrado para receber notificações"), [])).
Proof.
  intros Hget. split.
  - intros Ho. unfold email_notify. rewrite Ho, Hget. reflexivity.
  - intros Hadm. unfold email_test. rewrite Hadm, Hget. reflexivity.
Qed.

Lemma email_routes_without_recipients_witness :
  email_notify (sample_email_service [] Rejects) (JObj (Sample.order_with_id "o1"))
  = (mkReply 200 (message_body "Nenhum e-mail para notificar"), []).
Proof.
  apply (proj1 (email_routes_without_recipients
                  (sample_email_service [] Rejects)
                  (JObj (Sample.order_with_id "o1")) JUndefined JUndefined eq_refl)).
  reflexivity.
Defined.

(** With a recipient registered the notify route asks the e-mail
    service once and reports how that went: 200 when the service says
    the e-mail was sent, 500 when it says it was not or fails.  (The
    queue routes, in contrast, hide the outcome.) *)
Theorem email_notify_reports_delivery es order l :
  truthy order = true →
  getEstablishmentEmails es = Resolves l → l ≠ [] →
  (email_notify es order).2 = [SendNotification order]
  ∧ (api_code (email_notify es order).1 = 200
     ↔ sendNewOrderNotification es order = Resolves true)
  ∧ (api_code (email_notify es order).1 ≠ 200 →
     api_code (email_notify es order).1 = 500).
Proof.
  intros Ho Hget Hl. unfold email_notify. rewrite Ho, Hget. cbn.
  destruct l as [|x l]; [done|]. cbn.
  destruct (sendNewOrderNotification es order) as [[]|]; cbn;
    repeat split; try done; discriminate.
Qed.

Lemma email_notify_reports_delivery_witness :
  let es := sample_email_service [ascii_units "ana@example.com"] (Resolves false) in
  let order := JObj (Sample.order_with_id "o1") in
  (email_notify es order).2 = [SendNotification order]
  ∧ api_code (email_notify es order).1 = 500.
Proof.
  intros es order.
  destruct (email_notify_reports_delivery es order
              [ascii_units "ana@example.com"] eq_refl eq_refl)
    as (Hcalls & _ & H500); [discriminate|].
  split; [exact Hcalls|]. apply H500. vm_compute. discriminate.
Defined.

(** The test route sends its test e-mail only for an admin, with a
    recipient registered, and after the connection test succeeded; the
    connection test always comes first. *)
Theorem email_test_sends_after_connection es sessionUser testOrder o :
  SendNotification o ∈ (email_test es sessionUser testOrder).2 →
  o = testOrder
  ∧ adminMiddleware sessionUser = None
  ∧ (∃ l, getEstablishmentEmails es = Resolves l ∧ l ≠ [])
  ∧ testConnection es = Resolves true
  ∧ (email_test es sessionUser testOrder).2
    = [TestConnection; SendNotification testOrder].
Proof.
  unfold email_test.
  destruct (adminMiddleware sessionUser) as [r0|]; cbn; [intros H; no_call H|].
  destruct (getEstablishmentEmails es) as [l|] eqn:Hget; cbn; [|intros H; no_call H].
  destruct l as [|x l]; cbn; [intros H; no_call H|].
  destruct (testConnection es) as [[]|] eqn:Hc; cbn; try solve [intros H; no_call H].
  destruct (sendNewOrderNotification es testOrder) as [[]|]; cbn;
    intros H; no_call H; injection H as ->;
    (split; [done|]); (split; [done|]); (split; [by eexists|]); done.
Qed.

Lemma email_test_sends_after_connection_witness :
  let es := sample_email_service [ascii_units "ana@example.com"] (Resolves true) in
  let t := JObj (Sample.order_with_id "test-order") in
  (email_test es (JObj {[ "type" := JStr "admin" ]}) t).2
  = [TestConnection; SendNotification t].
Proof.
  intros es t.
  apply (email_test_sends_after_connection es (JObj {[ "type" := JStr "admin" ]}) t t).
  vm_compute. right. left.
Defined.

Lemma productData_defaults_witness :
  let body : order := {[ "name" := JStr "X-Burger"; "available" := JNum 0;
                         "createdAt" := JStr "1999-01-01" ]} in
  productData 1000 body !! "createdAt" = Some (JDate 1000)
  ∧ productData 1000 body !! "available" = Some (JBool true)
  ∧ productData 1000 body !! "isFeatured" = Some (JBool false)
  ∧ productData 1000 body !! "name" = Some (JStr "X-Burger").
Proof.
  intros body.
  destruct (productData_defaults 1000 body) as (Hc & Ha & _ & Hf & Hrest).
  split; [exact Hc|]. split; [exact Ha|]. split.
  - exact (Hf "isFeatured" (or_introl eq_refl)).
  - apply (Hrest "name"); discriminate.
Defined.
